(** * Calendar periods of ledger's [times.h]

    A shallow embedding of the duration, specifier, range and interval
    classes declared in [src/times.h], and the properties of them that the
    specification states.

    Layout: the calendar primitives, then one block of definitions per class
    of the header, then the theorems. *)

From Stdlib Require Import ZArith Lia Bool List.
From Stdlib Require Import Ascii String DecimalString DecimalPos DecimalZ.
Import ListNotations.
Open Scope Z_scope.

(** ** Calendar primitives

    [times.h] only names the calendar collaborator
    ([typedef boost::gregorian::date date_t]); its code is not part of the
    repository.  Section 6 of the specification asks of it "date +/-
    {days, weeks, months, years}, year/month/day/weekday accessors", and
    section 4.1 asks that month and year steps "follow calendar semantics
    (end-of-month clamping rules inherited from the calendar collaborator)".

    A date is its day number in the proleptic Gregorian calendar (the Julian
    day number of the date), so comparison of dates is comparison of
    integers and a step of [n] days is an addition.  The conversion between
    day numbers and (year, month, day) triples is the usual closed formula.
    The model is unbounded: it has no smallest or largest date and no
    "not a date" value. *)

Module gregorian.

(** Modelled from the spec: a date of the calendar collaborator, as its day
    number. *)
Definition date : Type := Z.

(** Modelled from the spec: the year, month and day of a date. *)
Record ymd_type : Type := mk_ymd { year : Z; month : Z; day : Z }.

(** Modelled from the spec: the day number of a year, month and day. *)
Definition day_number (ymd : ymd_type) : Z :=
  let a := (14 - month ymd) / 12 in
  let y := year ymd + 4800 - a in
  let m := month ymd + 12 * a - 3 in
  day ymd + (153 * m + 2) / 5 + 365 * y + y / 4 - y / 100 + y / 400 - 32045.

(** Modelled from the spec: the year, month and day of a day number. *)
Definition from_day_number (dayNumber : Z) : ymd_type :=
  let a := dayNumber + 32044 in
  let b := (4 * a + 3) / 146097 in
  let c := a - (146097 * b) / 4 in
  let d := (4 * c + 3) / 1461 in
  let e := c - (1461 * d) / 4 in
  let m := (5 * e + 2) / 153 in
  mk_ymd (100 * b + d - 4800 + m / 10)
         (m + 3 - 12 * (m / 10))
         (e - (153 * m + 2) / 5 + 1).

(** Modelled from the spec: the leap years of the Gregorian calendar. *)
Definition is_leap_year (y : Z) : bool :=
  (y mod 4 =? 0) && (negb (y mod 100 =? 0) || (y mod 400 =? 0)).

(** Modelled from the spec: the last day of month [m] of year [y]. *)
Definition end_of_month_day (y m : Z) : Z :=
  if m =? 2 then (if is_leap_year y then 29 else 28)
  else if (m =? 4) || (m =? 6) || (m =? 9) || (m =? 11) then 30
  else 31.

(** Modelled from the spec: [date(y, m, d)]. *)
Definition make_date (y m d : Z) : date := day_number (mk_ymd y m d).

(** Modelled from the spec: the accessors [year()], [month()] and [day()]
    of a date. *)
Definition year_of (d : date) : Z := year (from_day_number d).
Definition month_of (d : date) : Z := month (from_day_number d).
Definition day_of (d : date) : Z := day (from_day_number d).

(** Modelled from the spec: the accessor [day_of_week()].  Weekdays are
    numbered from Sunday = 0 to Saturday = 6; day number 0 is a Monday. *)
Definition day_of_week (d : date) : Z := (d + 1) mod 7.

(** Months are counted on one axis: month [m] of year [y] has index
    [12 * y + (m - 1)], and [month_start] is the first day of the month of
    an index. *)
Definition month_index (y m : Z) : Z := 12 * y + (m - 1).
Definition month_start (k : Z) : date := make_date (k / 12) (k mod 12 + 1) 1.

(** Modelled from the spec: [date + days(n)] and [date + weeks(n)]. *)
Definition add_days (d : date) (n : Z) : date := d + n.
Definition add_weeks (d : date) (n : Z) : date := d + 7 * n.

(** Modelled from the spec: [date + months(f)].  The step keeps the day of
    the month, clamps it to the length of the month reached, and maps a
    last day of a month to the last day of the month reached. *)
Definition add_months (d : date) (f : Z) : date :=
  let ymd := from_day_number d in
  let k := month_index (year ymd) (month ymd) + f in
  let y' := k / 12 in
  let m' := k mod 12 + 1 in
  let resultingEndOfMonthDay := end_of_month_day y' m' in
  if day ymd =? end_of_month_day (year ymd) (month ymd)
  then make_date y' m' resultingEndOfMonthDay
  else make_date y' m' (Z.min (day ymd) resultingEndOfMonthDay).

(** Modelled from the spec: [date + years(f)], a step of [12 * f] months. *)
Definition add_years (d : date) (f : Z) : date := add_months d (12 * f).

(** Modelled from the spec: the subtractions [date - days(n)],
    [date - weeks(n)], [date - months(f)] and [date - years(f)]. *)
Definition sub_days (d : date) (n : Z) : date := d - n.
Definition sub_weeks (d : date) (n : Z) : date := d - 7 * n.
Definition sub_months (d : date) (f : Z) : date := add_months d (- f).
Definition sub_years (d : date) (f : Z) : date := add_months d (- (12 * f)).

(** A triple names a date when its month and day exist. *)
Definition valid_ymd (ymd : ymd_type) : Prop :=
  1 <= month ymd <= 12 /\
  1 <= day ymd <= end_of_month_day (year ymd) (month ymd).

End gregorian.

(** ** Machine integers

    [date_duration_t::length] is a C++ [int].  Values of type [int] are
    integers of [is_int]; the one arithmetic operation the header does on
    them, [length * 3], wraps around at 32 bits. *)

Definition int_min : Z := - 2 ^ 31.
Definition int_max : Z := 2 ^ 31 - 1.
Definition is_int (z : Z) : Prop := int_min <= z <= int_max.
Definition int_wrap (z : Z) : Z := (z + 2 ^ 31) mod 2 ^ 32 - 2 ^ 31.

(** ** Dates and years *)

Definition date_t : Type := gregorian.date.
Definition optional_year : Type := option Z.

Definition is_some {A : Type} (o : option A) : bool :=
  match o with Some _ => true | None => false end.

(** [operator==] of two [optional<date_t>]: both empty, or both set to
    equal dates. *)
Definition optional_date_eqb (a b : option date_t) : bool :=
  match a, b with
  | Some x, Some y => x =? y
  | None, None => true
  | _, _ => false
  end.

(** ** [struct date_traits_t] *)

Record date_traits_t : Type := mk_date_traits_t {
  has_year : bool;
  has_month : bool;
  has_day : bool
}.

(** ** [struct date_duration_t] *)

Inductive skip_quantum_t : Type := DAYS | WEEKS | MONTHS | QUARTERS | YEARS.

Record date_duration_t : Type := mk_date_duration_t {
  quantum : skip_quantum_t;
  length : Z
}.

(** The three constructors: [date_duration_t()],
    [date_duration_t(_quantum, _length)] and the copy constructor. *)
Definition date_duration_t_default : date_duration_t :=
  mk_date_duration_t DAYS 0.

Definition date_duration_t_ctor (_quantum : skip_quantum_t) (_length : Z)
  : date_duration_t :=
  mk_date_duration_t _quantum _length.

Definition date_duration_t_copy (dur : date_duration_t) : date_duration_t :=
  mk_date_duration_t (quantum dur) (length dur).

(** [date_duration_t::add] and [date_duration_t::subtract]. *)
Definition add (dur : date_duration_t) (date : date_t) : date_t :=
  match quantum dur with
  | DAYS => gregorian.add_days date (length dur)
  | WEEKS => gregorian.add_weeks date (length dur)
  | MONTHS => gregorian.add_months date (length dur)
  | QUARTERS => gregorian.add_months date (int_wrap (length dur * 3))
  | YEARS => gregorian.add_years date (length dur)
  end.

Definition subtract (dur : date_duration_t) (date : date_t) : date_t :=
  match quantum dur with
  | DAYS => gregorian.sub_days date (length dur)
  | WEEKS => gregorian.sub_weeks date (length dur)
  | MONTHS => gregorian.sub_months date (length dur)
  | QUARTERS => gregorian.sub_months date (int_wrap (length dur * 3))
  | YEARS => gregorian.sub_years date (length dur)
  end.

(** ** [class date_specifier_t] *)

Record date_specifier_t : Type := mk_date_specifier_t {
  year : option Z;
  month : option Z;
  day : option Z;
  wday : option Z
}.

(** [date_specifier_t(_year, _month, _day, _wday)], every argument
    defaulting to [none]. *)
Definition date_specifier_t_ctor (_year _month _day _wday : option Z)
  : date_specifier_t :=
  mk_date_specifier_t _year _month _day _wday.

(** [date_specifier_t(date, traits)]: the fields the traits select are
    copied from the date; without traits all three are. *)
Definition date_specifier_t_of_date (date : date_t)
    (traits : option date_traits_t) : date_specifier_t :=
  let selects (f : date_traits_t -> bool) :=
    match traits with None => true | Some t => f t end in
  mk_date_specifier_t
    (if selects has_year then Some (gregorian.year_of date) else None)
    (if selects has_month then Some (gregorian.month_of date) else None)
    (if selects has_day then Some (gregorian.day_of date) else None)
    None.

Definition implied_duration (s : date_specifier_t) : option date_duration_t :=
  if is_some (day s) || is_some (wday s)
  then Some (date_duration_t_ctor DAYS 1)
  else if is_some (month s)
  then Some (date_duration_t_ctor MONTHS 1)
  else if is_some (year s)
  then Some (date_duration_t_ctor YEARS 1)
  else None.

(** ** What the header declares and does not define

    [date_specifier_t::begin] and [date_specifier_t::end] are declared in
    the class and defined elsewhere, and [start_of_week] is an [extern]
    variable.  The functions of the header that use them take them from
    this class.  The two functions are total, as their C++ types say:
    a call that does not return is outside the model. *)

Class externs : Type := mk_externs {
  date_specifier_t_begin : date_specifier_t -> optional_year -> date_t;
  date_specifier_t_end : date_specifier_t -> optional_year -> date_t;
  start_of_week : Z
}.

Definition date_specifier_t_is_within `{externs} (s : date_specifier_t)
    (date : date_t) (current_year : optional_year) : bool :=
  (date_specifier_t_begin s current_year <=? date) &&
  (date <? date_specifier_t_end s current_year).

(** ** [class date_range_t] *)

Record date_range_t : Type := mk_date_range_t {
  range_begin : option date_specifier_t;
  range_end : option date_specifier_t;
  end_inclusive : bool
}.

(** The public constructor [date_range_t(_range_begin, _range_end)], both
    arguments defaulting to [none], and the copy constructor. *)
Definition date_range_t_ctor (_range_begin _range_end : option date_specifier_t)
  : date_range_t :=
  mk_date_range_t _range_begin _range_end false.

Definition date_range_t_copy (other : date_range_t) : date_range_t :=
  mk_date_range_t (range_begin other) (range_end other) (end_inclusive other).

Definition date_range_t_begin `{externs} (r : date_range_t)
    (current_year : optional_year) : option date_t :=
  match range_begin r with
  | Some b => Some (date_specifier_t_begin b current_year)
  | None => None
  end.

Definition date_range_t_end `{externs} (r : date_range_t)
    (current_year : optional_year) : option date_t :=
  match range_end r with
  | Some e =>
      if end_inclusive r
      then Some (date_specifier_t_end e current_year)
      else Some (date_specifier_t_begin e current_year)
  | None => None
  end.

Definition date_range_t_is_within `{externs} (r : date_range_t)
    (date : date_t) (current_year : optional_year) : bool :=
  let b := date_range_t_begin r current_year in
  let e := date_range_t_end r current_year in
  let after_begin := match b with Some b' => b' <=? date | None => true end in
  let before_end := match e with Some e' => date <? e' | None => true end in
  after_begin && before_end.

(** ** [class date_specifier_or_range_t]

    The held value is a [variant<int, date_specifier_t, date_range_t>]; a
    default-constructed object holds the [int] alternative. *)

Inductive value_type : Type :=
| held_int (n : Z)
| held_specifier (specifier : date_specifier_t)
| held_range (range : date_range_t).

Definition date_specifier_or_range_t : Type := value_type.

Definition date_specifier_or_range_t_default : date_specifier_or_range_t :=
  held_int 0.

Definition date_specifier_or_range_t_begin `{externs}
    (v : date_specifier_or_range_t) (current_year : optional_year)
  : option date_t :=
  match v with
  | held_specifier s => Some (date_specifier_t_begin s current_year)
  | held_range r => date_range_t_begin r current_year
  | held_int _ => None
  end.

Definition date_specifier_or_range_t_end `{externs}
    (v : date_specifier_or_range_t) (current_year : optional_year)
  : option date_t :=
  match v with
  | held_specifier s => Some (date_specifier_t_end s current_year)
  | held_range r => date_range_t_end r current_year
  | held_int _ => None
  end.

(** The member functions that the class defines, next to its constructors
    and destructor: [begin], [end], [to_string] and the private
    [serialize]. *)
Inductive date_specifier_or_range_t_member : Type :=
| member_begin
| member_end
| member_to_string
| member_serialize.

Definition member_name (m : date_specifier_or_range_t_member) : string :=
  match m with
  | member_begin => "begin"
  | member_end => "end"
  | member_to_string => "to_string"
  | member_serialize => "serialize"
  end.

(** Containment read off the two bounds that the class does have. *)
Definition within_bounds (b e : option date_t) (date : date_t) : bool :=
  match b with Some b' => b' <=? date | None => true end &&
  match e with Some e' => date <? e' | None => true end.

(** ** [class date_interval_t] *)

Record date_interval_t : Type := mk_date_interval_t {
  range : option date_specifier_or_range_t;
  start : option date_t;
  finish : option date_t;
  aligned : bool;
  next : option date_t;
  duration : option date_duration_t;
  end_of_duration : option date_t
}.

Definition date_interval_t_default : date_interval_t :=
  mk_date_interval_t None None None false None None None.

Definition date_interval_t_copy (other : date_interval_t) : date_interval_t :=
  mk_date_interval_t (range other) (start other) (finish other)
    (aligned other) (next other) (duration other) (end_of_duration other).

(** Assignments to single members. *)
Definition set_start (v : option date_t) (i : date_interval_t) :=
  mk_date_interval_t (range i) v (finish i) (aligned i) (next i)
    (duration i) (end_of_duration i).

Definition set_finish (v : option date_t) (i : date_interval_t) :=
  mk_date_interval_t (range i) (start i) v (aligned i) (next i)
    (duration i) (end_of_duration i).

Definition set_aligned (v : bool) (i : date_interval_t) :=
  mk_date_interval_t (range i) (start i) (finish i) v (next i)
    (duration i) (end_of_duration i).

Definition set_duration (v : option date_duration_t) (i : date_interval_t) :=
  mk_date_interval_t (range i) (start i) (finish i) (aligned i) (next i)
    v (end_of_duration i).

Definition set_end_of_duration (v : option date_t) (i : date_interval_t) :=
  mk_date_interval_t (range i) (start i) (finish i) (aligned i) (next i)
    (duration i) v.

(** [operator==].  The second conjunct is only evaluated when the first
    holds, that is with [other.start] set whenever [start] is. *)
Definition operator_eq (self other : date_interval_t) : bool :=
  optional_date_eqb (start self) (start other) &&
  match start self, start other with
  | None, _ => true
  | Some s, Some o => s =? o
  | Some _, None => false
  end.

Definition is_valid (i : date_interval_t) : bool := is_some (start i).

Definition date_interval_t_begin `{externs} (i : date_interval_t)
    (current_year : optional_year) : option date_t :=
  match start i with
  | Some s => Some s
  | None =>
      match range i with
      | Some r => date_specifier_or_range_t_begin r current_year
      | None => None
      end
  end.

Definition date_interval_t_end `{externs} (i : date_interval_t)
    (current_year : optional_year) : option date_t :=
  match finish i with
  | Some f => Some f
  | None =>
      match range i with
      | Some r => date_specifier_or_range_t_end r current_year
      | None => None
      end
  end.

Definition inclusive_end (i : date_interval_t) : option date_t :=
  match end_of_duration i with
  | Some e => Some (gregorian.sub_days e 1)
  | None => None
  end.

(** ** The interval engine

    [times.h] declares [find_nearest], [resolve_end], [stabilize],
    [find_period] and [operator++] and defines none of them.  Each is
    modelled from the sentences of the specification quoted with it. *)

(** Modelled from the spec: [date_duration_t::find_nearest] has no body in
    [times.h].  Section 4.1: "given any date, returns the canonical aligned
    boundary at or before that date for the given quantum (e.g.,
    nearest_boundary(any Tuesday, Week) returns the configured start-of-week
    on or before that date)".  The boundaries are every day, the configured
    first day of the week, the first day of a month, of a calendar quarter
    (January, April, July, October) and of a year. *)
Definition find_nearest `{externs} (date : date_t) (skip : skip_quantum_t)
  : date_t :=
  match skip with
  | DAYS => date
  | WEEKS =>
      gregorian.sub_days date
        ((gregorian.day_of_week date - start_of_week) mod 7)
  | MONTHS =>
      gregorian.make_date (gregorian.year_of date) (gregorian.month_of date) 1
  | QUARTERS =>
      gregorian.make_date (gregorian.year_of date)
        (gregorian.month_of date - (gregorian.month_of date - 1) mod 3) 1
  | YEARS => gregorian.make_date (gregorian.year_of date) 1 1
  end.

(** The two error kinds of section 7 of the specification, and the result
    of an operation that may report one.  An operation that reports an
    error hands back the interval it was given. *)
Inductive error : Type := MalformedPeriod | OutOfBounds.

Inductive outcome (A : Type) : Type :=
| returned (a : A)
| raised (e : error).

Arguments returned {A} a.
Arguments raised {A} e.

(** Modelled from the spec: [resolve_end] has no body in [times.h].
    Section 4.5: "recompute [end_of_duration] from the current [start] and
    [duration]"; "[end_of_duration] must equal [duration.add(start)]
    whenever both are defined".  With either of the two missing there is
    nothing to compute from and the interval stays as it is. *)
Definition resolve_end (i : date_interval_t) : date_interval_t :=
  match start i, duration i with
  | Some s, Some d => set_end_of_duration (Some (add d s)) i
  | _, _ => i
  end.

(** Modelled from the spec: first step of [stabilize], section 4.5.  "If
    [window] present, resolve its [begin]/[end] (using [reference_date]'s
    year as disambiguation when needed) into [start]"; "[finish] is set
    only when the window explicitly bounds the upper side". *)
Definition resolve_window `{externs} (current_year : optional_year)
    (i : date_interval_t) : date_interval_t :=
  match range i with
  | Some w =>
      let i1 :=
        match date_specifier_or_range_t_begin w current_year with
        | Some b => set_start (Some b) i
        | None => i
        end in
      match date_specifier_or_range_t_end w current_year with
      | Some e => set_finish (Some e) i1
      | None => i1
      end
  | None => i
  end.

(** Modelled from the spec: second step of [stabilize], section 4.5.  "If
    no explicit [duration] was given, derive one from the window's implied
    duration (specifier) or leave unaligned (range)." *)
Definition derive_duration (i : date_interval_t) : date_interval_t :=
  match duration i, range i with
  | None, Some (held_specifier s) => set_duration (implied_duration s) i
  | _, _ => i
  end.

(** Modelled from the spec: third step of [stabilize], section 4.5.  "If
    [duration] is set and the resolved [start] does not fall exactly on a
    quantum boundary, snap [start] backward to the nearest boundary for
    that quantum (sets [aligned = true])." *)
Definition align_start `{externs} (i : date_interval_t) : date_interval_t :=
  match duration i, start i with
  | Some d, Some s =>
      if find_nearest s (quantum d) =? s then i
      else set_aligned true (set_start (Some (find_nearest s (quantum d))) i)
  | _, _ => i
  end.

(** Modelled from the spec: [stabilize] has no body in [times.h].  It is
    the three steps above, in the order of section 4.5, and then "Compute
    [end_of_duration = duration.add(start)]".  The disambiguation year is
    that of the reference date, when there is one. *)
Definition stabilize `{externs} (i : date_interval_t) (date : option date_t)
  : date_interval_t :=
  let current_year := option_map gregorian.year_of date in
  resolve_end (align_start (derive_duration (resolve_window current_year i))).

(** The [[start, end_of_duration)] window of an interval. *)
Definition window (i : date_interval_t) : option (date_t * date_t) :=
  match start i, end_of_duration i with
  | Some s, Some e => Some (s, e)
  | _, _ => None
  end.

(** Modelled from the spec: the test that section 4.5 names for
    [find_period], "if [window] bounds exist and [date] falls outside
    them", read on the window as it was given.  The window is resolved in
    the year of [date]. *)
Definition outside_window `{externs} (i : date_interval_t) (date : date_t)
  : bool :=
  match range i with
  | Some w =>
      let current_year := Some (gregorian.year_of date) in
      negb (within_bounds (date_specifier_or_range_t_begin w current_year)
                          (date_specifier_or_range_t_end w current_year)
                          date)
  | None => false
  end.

(** Modelled from the spec: the interval that [find_period] works on.
    Section 3: an interval "becomes valid only once [start] is set (via
    [stabilize] or [find_period])"; so an interval without a [start] is
    first stabilized, with the date as reference date. *)
Definition started `{externs} (i : date_interval_t) (date : date_t)
  : date_interval_t :=
  if is_valid i then i else stabilize i (Some date).

(** Modelled from the spec: the bounds test of [find_period].  Section 4.5:
    "Returns false (engine left unchanged) if [window] bounds exist and
    [date] falls outside them"; section 7: a [find_period] that "would move
    past an explicit [finish]", or a date that "lies outside an explicit
    window", makes it return false.  The bounds are the resolved ones of
    section 3 ("[start]/[finish] are the resolved, possibly-adjusted real
    boundaries"), as [begin] and [end] of the interval give them: [start],
    or else the window's begin; [finish], or else the window's end. *)
Definition outside_bounds `{externs} (i : date_interval_t) (date : date_t)
  : bool :=
  let current_year := Some (gregorian.year_of date) in
  negb (within_bounds (date_interval_t_begin i current_year)
                      (date_interval_t_end i current_year) date).

(** Modelled from the spec: the test for the cached period, section 8,
    "for all dates D in [[start, end_of_duration)], [find_period(D)] returns
    true and leaves [start] unchanged". *)
Definition in_cached_period (i : date_interval_t) (date : date_t) : bool :=
  match window i with
  | Some (s, e) => (s <=? date) && (date <? e)
  | None => false
  end.

(** Modelled from the spec: the search of [find_period], section 4.5,
    "locate the period (of length [duration], aligned per above) that
    contains [date], even if it is not the currently cached period - e.g.,
    advancing many steps at once rather than one at a time".  The periods
    are those that follow one another from [scan], each one [duration]
    long; the search goes through them until one ends after the date.
    [fuel] bounds the number of periods it passes: the search has no result
    when it runs out. *)
Fixpoint locate (fuel : nat) (d : date_duration_t) (date scan : date_t)
  : option date_t :=
  if date <? add d scan then Some scan
  else
    match fuel with
    | O => None
    | S fuel' => locate fuel' d date (add d scan)
    end.

(** Modelled from the spec: [find_period] has no body in [times.h].
    Section 4.5: "Returns false (engine left unchanged) if [window] bounds
    exist and [date] falls outside them; otherwise computes the
    boundary-aligned period containing [date] and mutates
    [start]/[end_of_duration] to match, returning true."

    A date outside the bounds gives false and the interval as it was.  A
    date in the cached period is found there.  Any other date is searched
    for from [start]; an interval that still has no [start], having no
    lower bound to take it from, begins at the boundary that
    [find_nearest] gives for the date (section 4.5, [is_valid]: "invalid
    until [stabilize]/[find_period] establishes a concrete [start]").  An
    interval without a duration has no period to compute: section 7 makes
    that a [MalformedPeriod] ("a window or duration cannot be resolved").
    The result is [None] when the search runs out of [fuel]. *)
Definition find_period `{externs} (fuel : nat) (i : date_interval_t)
    (date : date_t) : option (outcome bool * date_interval_t) :=
  let i0 := started i date in
  if outside_bounds i0 date then Some (returned false, i)
  else if in_cached_period i0 date then Some (returned true, i0)
  else
    match duration i0 with
    | Some d =>
        let origin :=
          match start i0 with
          | Some s => s
          | None => find_nearest date (quantum d)
          end in
        match locate fuel d date origin with
        | Some s' =>
            Some (returned true,
                  set_end_of_duration (Some (add d s'))
                    (set_start (Some s') i0))
        | None => None
        end
    | None => Some (raised MalformedPeriod, i)
    end.

(** Modelled from the spec: the test of [operator++], section 4.5, "the
    new [start] would exceed an explicit [finish] bound". *)
Definition exceeds (new_start finish : option date_t) : bool :=
  match new_start, finish with
  | Some s, Some f => f <? s
  | _, _ => false
  end.

(** Modelled from the spec: [operator++] has no body in [times.h].
    Section 4.5: "sets [start = end_of_duration], then [resolve_end()].
    Must be rejected (no-op, or signaled invalid) once the new [start]
    would exceed an explicit [finish] bound"; section 7: "stepping past
    [finish] leaves the interval in its last valid state and reports the
    condition". *)
Definition operator_incr (i : date_interval_t)
  : outcome unit * date_interval_t :=
  if exceeds (end_of_duration i) (finish i) then (raised OutOfBounds, i)
  else (returned tt, resolve_end (set_start (end_of_duration i) i)).

(** [k] steps one after the other. *)
Definition advance (k : nat) (i : date_interval_t) : date_interval_t :=
  Nat.iter k (fun j => snd (operator_incr j)) i.

(** The windows that at most [n] steps go through. *)
Fixpoint periods (n : nat) (i : date_interval_t) : list (date_t * date_t) :=
  match window i with
  | None => []
  | Some w =>
      w :: match n with
           | O => []
           | S n' =>
               match operator_incr i with
               | (returned _, i') => periods n' i'
               | (raised _, _) => []
               end
           end
  end.

(** ** Properties the theorems speak of *)

(** The central invariant of section 4.5. *)
Definition end_resolved (i : date_interval_t) : Prop :=
  forall s d, start i = Some s -> duration i = Some d ->
              end_of_duration i = Some (add d s).

(** The intervals the engine produces: what [stabilize] or [resolve_end]
    leave, and what the stepping operations make of such an interval. *)
Inductive stabilized `{externs} : date_interval_t -> Prop :=
| stabilized_stabilize (i : date_interval_t) (date : option date_t) :
    stabilized (stabilize i date)
| stabilized_resolve_end (i : date_interval_t) :
    stabilized (resolve_end i)
| stabilized_incr (i : date_interval_t) :
    stabilized i -> stabilized (snd (operator_incr i))
| stabilized_find_period (i i' : date_interval_t) (date : date_t)
    (fuel : nat) (o : outcome bool) :
    stabilized i -> find_period fuel i date = Some (o, i') -> stabilized i'.

(** A duration whose [add] moves forward: a positive length, and for
    quarters one whose triple is still an [int]. *)
Definition steps_forward (d : date_duration_t) : Prop :=
  0 < length d /\ (quantum d = QUARTERS -> length d * 3 <= int_max).

(** Windows that follow one another: none is empty and each begins where
    the one before it ends. *)
Inductive contiguous : list (date_t * date_t) -> Prop :=
| contiguous_nil : contiguous []
| contiguous_one (s e : date_t) : s < e -> contiguous [(s, e)]
| contiguous_cons (s e e' : date_t) (l : list (date_t * date_t)) :
    s < e -> contiguous ((e, e') :: l) -> contiguous ((s, e) :: (e, e') :: l).

(** The ranges that the public interface of [date_range_t] builds: the
    constructor, and copies of what it built. *)
Inductive publicly_built : date_range_t -> Prop :=
| built_ctor (b e : option date_specifier_t) :
    publicly_built (date_range_t_ctor b e)
| built_copy (r : date_range_t) :
    publicly_built r -> publicly_built (date_range_t_copy r).

(** The date durations that the three constructors build. *)
Inductive constructible : date_duration_t -> Prop :=
| constructible_default : constructible date_duration_t_default
| constructible_ctor (q : skip_quantum_t) (l : Z) :
    is_int l -> constructible (date_duration_t_ctor q l)
| constructible_copy (d : date_duration_t) :
    constructible d -> constructible (date_duration_t_copy d).

(** ** An instance for the scenarios

    The scenarios of section 8 of the specification need values for what
    [externs] leaves open. *)

(** Modelled from the spec: the body of [date_specifier_t::begin] is not
    in [times.h].  Section 4.2: "resolve the partial date to the
    earliest/one-past-latest date matching all present fields", the year
    being the specifier's or else the disambiguation year.  The first month
    and the first day stand in for missing ones.  Weekdays are not
    resolved, and where there is no year at all, which the specification
    leaves to the caller, the year is 0. *)
Definition scenario_begin (s : date_specifier_t) (current_year : optional_year)
  : date_t :=
  let the_year :=
    match year s, current_year with
    | Some y, _ => y
    | None, Some y => y
    | None, None => 0
    end in
  let the_month := match month s with Some m => m | None => 1 end in
  let the_day := match day s with Some d => d | None => 1 end in
  gregorian.make_date the_year the_month the_day.

(** Modelled from the spec: the body of [date_specifier_t::end] is not in
    [times.h].  Section 4.2, as above: the date one implied duration after
    [begin]. *)
Definition scenario_end (s : date_specifier_t) (current_year : optional_year)
  : date_t :=
  match implied_duration s with
  | Some d => add d (scenario_begin s current_year)
  | None => scenario_begin s current_year
  end.

(** The week starts on Monday, as in scenario B. *)
Definition scenario : externs := mk_externs scenario_begin scenario_end 1.

(** ** The scenarios of section 8 of the specification *)

(** Scenario A: the window is the specifier "March 2021" and no duration
    is given. *)
Definition scenario_A : date_interval_t :=
  mk_date_interval_t
    (Some (held_specifier (date_specifier_t_ctor (Some 2021) (Some 3) None None)))
    None None false None None None.

(** Scenario B: steps of two weeks from Wednesday 2021-03-10. *)
Definition scenario_B : date_interval_t :=
  mk_date_interval_t
    (Some (held_range
             (date_range_t_ctor
                (Some (date_specifier_t_ctor (Some 2021) (Some 3) (Some 10) None))
                None)))
    None None false None (Some (date_duration_t_ctor WEEKS 2)) None.

(** Scenario C: the range from 2020 to 2021. *)
Definition scenario_C : date_range_t :=
  date_range_t_ctor (Some (date_specifier_t_ctor (Some 2020) None None None))
                    (Some (date_specifier_t_ctor (Some 2021) None None None)).

(** Scenario D: monthly steps from 2021-05-01 with the explicit finish
    2021-06-01. *)
Definition scenario_D : date_interval_t :=
  mk_date_interval_t None
    (Some (gregorian.make_date 2021 5 1)) (Some (gregorian.make_date 2021 6 1))
    false None (Some (date_duration_t_ctor MONTHS 1))
    (Some (gregorian.make_date 2021 6 1)).

(** An interval whose step is the default-constructed duration, of length
    zero. *)
Definition zero_length_interval : date_interval_t :=
  mk_date_interval_t None (Some (gregorian.make_date 2021 5 1)) None false None
    (Some date_duration_t_default) (Some (gregorian.make_date 2021 5 1)).

(** ** Further members of the header *)

(** [date_traits_t::operator==]. *)
Definition date_traits_t_eq (self traits : date_traits_t) : bool :=
  Bool.eqb (has_year self) (has_year traits) &&
  Bool.eqb (has_month self) (has_month traits) &&
  Bool.eqb (has_day self) (has_day traits).

(** What [out << length] writes for an [int]: its decimal digits, after a
    minus sign when it is negative. *)
Definition show_int (z : Z) : string := NilZero.string_of_int (Z.to_int z).

(** The unit that [date_duration_t::to_string] writes for a quantum. *)
Definition unit_name (q : skip_quantum_t) : string :=
  match q with
  | DAYS => "day"
  | WEEKS => "week"
  | MONTHS => "month"
  | QUARTERS => "quarter"
  | YEARS => "year"
  end.

(** [date_duration_t::to_string]: the length, a space, the unit, and an
    ['s'] when the length is greater than one. *)
Definition date_duration_t_to_string (dur : date_duration_t) : string :=
  String.append (show_int (length dur))
    (String " "
       (String.append (unit_name (quantum dur))
          (if 1 <? length dur then "s" else ""))).

(** [operator!=], which [equality_comparable<date_interval_t>] derives from
    [operator==]. *)
Definition operator_ne (self other : date_interval_t) : bool :=
  negb (operator_eq self other).

(** The months that [add] and [subtract] step by, for the three quanta
    that count in months. *)
Definition months_of (dur : date_duration_t) : option Z :=
  match quantum dur with
  | MONTHS => Some (length dur)
  | QUARTERS => Some (int_wrap (length dur * 3))
  | YEARS => Some (12 * length dur)
  | DAYS | WEEKS => None
  end.

(** Two readings of a date that the facts about month steps use. *)
Module calendar_axis.
Import gregorian.

(** The month of a date, on the axis of month indexes. *)
Definition index_of (d : date) : Z := month_index (year_of d) (month_of d).

(** The day of the month that a step of months arrives on. *)
Definition arrival_day (d : date) (k' : Z) : Z :=
  if day_of d =? end_of_month_day (year_of d) (month_of d)
  then end_of_month_day (k' / 12) (k' mod 12 + 1)
  else Z.min (day_of d) (end_of_month_day (k' / 12) (k' mod 12 + 1)).

End calendar_axis.

(** Strings without a space, as the digits of a number are. *)
Fixpoint no_space (s : string) : bool :=
  match s with
  | EmptyString => true
  | String c s' => negb (Ascii.eqb c " ") && no_space s'
  end.

(** ** Facts about the calendar primitives *)

Module gregorian_facts.
Import gregorian.

Ltac eqb_cases :=
  repeat match goal with
         | |- context [Z.eqb ?a ?b] => destruct (Z.eqb_spec a b)
         end; cbn [andb orb negb].

Ltac div_lia := Z.to_euclidean_division_equations; lia.

Lemma day_number_from_day_number (n : Z) :
  day_number (from_day_number n) = n.
Proof.
  unfold from_day_number, day_number; cbn [year month day]; div_lia.
Qed.

Lemma end_of_month_day_bounds (y m : Z) : 28 <= end_of_month_day y m <= 31.
Proof.
  unfold end_of_month_day.
  destruct (m =? 2); [destruct (is_leap_year y); lia|].
  destruct ((m =? 4) || (m =? 6) || (m =? 9) || (m =? 11)); lia.
Qed.

Lemma from_day_number_valid (n : Z) : valid_ymd (from_day_number n).
Proof.
  unfold valid_ymd, from_day_number, end_of_month_day, is_leap_year;
    cbn [year month day].
  split; [div_lia|].
  split; [div_lia|].
  eqb_cases; div_lia.
Qed.

Lemma month_start_succ (k : Z) :
  month_start (k + 1) =
  month_start k + end_of_month_day (k / 12) (k mod 12 + 1).
Proof.
  unfold month_start, make_date, day_number, end_of_month_day, is_leap_year;
    cbn [year month day].
  eqb_cases; div_lia.
Qed.

Lemma month_start_lt (k k' : Z) : k < k' -> month_start k < month_start k'.
Proof.
  intros Hlt.
  replace k' with (k + 1 + (k' - k - 1)) by lia.
  assert (Hn : 0 <= k' - k - 1) by lia.
  generalize dependent (k' - k - 1); clear k' Hlt.
  intros n Hn; pattern n; apply natlike_ind; trivial.
  - rewrite Z.add_0_r, month_start_succ.
    pose proof (end_of_month_day_bounds (k / 12) (k mod 12 + 1)); lia.
  - intros x _ IH.
    replace (k + 1 + Z.succ x) with (k + 1 + x + 1) by lia.
    rewrite month_start_succ.
    pose proof (end_of_month_day_bounds ((k + 1 + x) / 12)
                                        ((k + 1 + x) mod 12 + 1)); lia.
Qed.

Lemma month_start_le (k k' : Z) : k <= k' -> month_start k <= month_start k'.
Proof.
  intros Hle; destruct (Z.eq_dec k k') as [-> | Hne]; [lia|].
  apply Z.lt_le_incl, month_start_lt; lia.
Qed.

Lemma month_index_split (y m : Z) :
  1 <= m <= 12 ->
  month_index y m / 12 = y /\ month_index y m mod 12 + 1 = m.
Proof. unfold month_index; intros Hm; div_lia. Qed.

Lemma day_number_month_start (ymd : ymd_type) :
  1 <= month ymd <= 12 ->
  day_number ymd =
  month_start (month_index (year ymd) (month ymd)) + (day ymd - 1).
Proof.
  intros Hm; unfold month_start, make_date.
  destruct (month_index_split (year ymd) (month ymd) Hm) as [-> ->].
  unfold day_number; cbn [year month day]; lia.
Qed.

(** Day numbers order valid triples as the calendar does: a date of a
    later month has the larger day number. *)
Lemma day_number_lt_months (a b : ymd_type) :
  valid_ymd a -> 1 <= month b <= 12 -> 1 <= day b ->
  month_index (year a) (month a) < month_index (year b) (month b) ->
  day_number a < day_number b.
Proof.
  intros [Hma Hda] Hmb Hdb Hlt.
  rewrite (day_number_month_start a Hma), (day_number_month_start b Hmb).
  set (k := month_index (year a) (month a)) in *.
  assert (Hs : month_start (k + 1) <=
               month_start (month_index (year b) (month b)))
    by (apply month_start_le; lia).
  rewrite month_start_succ in Hs.
  unfold k in Hs at 2 3.
  destruct (month_index_split (year a) (month a) Hma) as [Hy Hm].
  rewrite Hy, Hm in Hs; lia.
Qed.

Lemma day_number_inj (a b : ymd_type) :
  valid_ymd a -> valid_ymd b -> day_number a = day_number b -> a = b.
Proof.
  intros Ha Hb Heq.
  destruct (Z.lt_total (month_index (year a) (month a))
                       (month_index (year b) (month b))) as [Hlt | [He | Hgt]].
  - pose proof (day_number_lt_months a b Ha (proj1 Hb) (proj1 (proj2 Hb)) Hlt); lia.
  - destruct a as [ya ma da], b as [yb mb db];
      unfold valid_ymd, month_index in *; cbn [year month day] in *.
    assert (ya = yb /\ ma = mb) as [-> ->] by lia.
    unfold day_number in Heq; cbn [year month day] in Heq.
    f_equal; lia.
  - pose proof (day_number_lt_months b a Hb (proj1 Ha) (proj1 (proj2 Ha)) Hgt); lia.
Qed.

Lemma from_day_number_day_number (ymd : ymd_type) :
  valid_ymd ymd -> from_day_number (day_number ymd) = ymd.
Proof.
  intros Hv; apply day_number_inj; trivial using from_day_number_valid.
  apply day_number_from_day_number.
Qed.

Lemma month_start_valid (k : Z) :
  valid_ymd (mk_ymd (k / 12) (k mod 12 + 1) 1).
Proof.
  unfold valid_ymd; cbn [year month day].
  pose proof (end_of_month_day_bounds (k / 12) (k mod 12 + 1)).
  split; [div_lia | lia].
Qed.

Lemma month_index_div_mod (k : Z) : month_index (k / 12) (k mod 12 + 1) = k.
Proof. unfold month_index; div_lia. Qed.

(** The month a date lies in: it starts on or before the date, and the
    next month starts after it. *)
Lemma month_start_le_date (d : date) :
  month_start (month_index (year_of d) (month_of d)) <= d.
Proof.
  pose proof (from_day_number_valid d) as [Hm Hd].
  pose proof (day_number_month_start (from_day_number d) Hm) as Heq.
  rewrite day_number_from_day_number in Heq.
  unfold year_of, month_of; lia.
Qed.

Lemma date_lt_next_month_start (d : date) :
  d < month_start (month_index (year_of d) (month_of d) + 1).
Proof.
  pose proof (from_day_number_valid d) as [Hm Hd].
  pose proof (day_number_month_start (from_day_number d) Hm) as Heq.
  rewrite day_number_from_day_number in Heq.
  rewrite month_start_succ.
  destruct (month_index_split (year (from_day_number d)) (month (from_day_number d)) Hm) as [Hy Hmm].
  unfold year_of, month_of; rewrite Hy, Hmm; lia.
Qed.

Lemma add_days_gt (d : date) (n : Z) : 0 < n -> d < add_days d n.
Proof. unfold add_days; lia. Qed.

Lemma add_weeks_gt (d : date) (n : Z) : 0 < n -> d < add_weeks d n.
Proof. unfold add_weeks; lia. Qed.

(** A step of a positive number of months leads to a later date, whatever
    the clamping does to the day of the month. *)
Lemma add_months_gt (d : date) (f : Z) : 0 < f -> d < add_months d f.
Proof.
  intros Hf.
  pose proof (from_day_number_valid d) as Hv.
  pose proof (day_number_from_day_number d) as Hd.
  unfold add_months.
  set (ymd := from_day_number d) in *.
  set (k := month_index (year ymd) (month ymd) + f).
  pose proof (end_of_month_day_bounds (k / 12) (k mod 12 + 1)) as He.
  assert (Hlt : forall dd, 1 <= dd ->
                  day_number ymd < make_date (k / 12) (k mod 12 + 1) dd).
  { intros dd Hdd; unfold make_date.
    apply day_number_lt_months; cbn [year month day]; trivial.
    - div_lia.
    - rewrite month_index_div_mod; unfold k; lia. }
  rewrite <- Hd at 1.
  destruct Hv as [_ Hday].
  destruct (day ymd =? _); apply Hlt; lia.
Qed.

Lemma add_years_gt (d : date) (f : Z) : 0 < f -> d < add_years d f.
Proof. intros Hf; apply add_months_gt; lia. Qed.

(** Steps from the first day of a month stay on first days. *)
Lemma add_months_month_start (k f : Z) :
  add_months (month_start k) f = month_start (k + f).
Proof.
  assert (Hfd : from_day_number (month_start k) =
                mk_ymd (k / 12) (k mod 12 + 1) 1)
    by apply (from_day_number_day_number _ (month_start_valid k)).
  unfold add_months; rewrite Hfd; cbn [year month day].
  rewrite month_index_div_mod; fold (month_start (k + f)).
  pose proof (end_of_month_day_bounds (k / 12) (k mod 12 + 1)).
  pose proof (end_of_month_day_bounds ((k + f) / 12) ((k + f) mod 12 + 1)).
  destruct (Z.eqb_spec 1 (end_of_month_day (k / 12) (k mod 12 + 1))); [lia|].
  rewrite Z.min_l by lia; reflexivity.
Qed.

(** The clamping of month steps, and the numbering of weekdays. *)
Example add_months_clamps :
  add_months (make_date 2021 1 31) 1 = make_date 2021 2 28 /\
  add_months (make_date 2021 2 28) 1 = make_date 2021 3 31 /\
  add_months (make_date 2020 1 30) 1 = make_date 2020 2 29 /\
  add_months (make_date 2021 3 15) (- 4) = make_date 2020 11 15.
Proof. vm_compute; repeat split. Qed.

Example wednesday_2021_03_10 : day_of_week (make_date 2021 3 10) = 3.
Proof. reflexivity. Qed.

(** Known day numbers and month lengths. *)
Example day_number_2000_01_01 :
  make_date 2000 1 1 = 2451545 /\
  from_day_number 2451545 = mk_ymd 2000 1 1 /\
  end_of_month_day 2000 2 = 29 /\ end_of_month_day 1900 2 = 28 /\
  end_of_month_day 2024 2 = 29 /\ end_of_month_day 2021 2 = 28.
Proof. vm_compute; repeat split. Qed.

End gregorian_facts.

(** ** Facts about durations and boundaries *)

Lemma int_wrap_small (z : Z) : is_int z -> int_wrap z = z.
Proof.
  unfold is_int, int_wrap, int_min, int_max; intros Hz.
  rewrite Z.mod_small; lia.
Qed.

(** A duration that steps forward leads to a later date. *)
Lemma add_steps_forward (d : date_duration_t) (date : date_t) :
  steps_forward d -> date < add d date.
Proof.
  intros [Hpos Hq]; unfold add.
  destruct (quantum d) eqn:Eq.
  - now apply gregorian_facts.add_days_gt.
  - now apply gregorian_facts.add_weeks_gt.
  - now apply gregorian_facts.add_months_gt.
  - specialize (Hq eq_refl).
    rewrite int_wrap_small by (unfold is_int, int_min; lia).
    apply gregorian_facts.add_months_gt; lia.
  - now apply gregorian_facts.add_years_gt.
Qed.

Lemma make_date_month_start (y m : Z) :
  1 <= m <= 12 ->
  gregorian.make_date y m 1 =
  gregorian.month_start (gregorian.month_index y m).
Proof.
  intros Hm; unfold gregorian.month_start.
  now destruct (gregorian_facts.month_index_split y m Hm) as [-> ->].
Qed.

Section boundaries.
Context `{externs}.
Variable date : date_t.

Let y := gregorian.year_of date.
Let m := gregorian.month_of date.

Lemma month_of_bounds : 1 <= m <= 12.
Proof. exact (proj1 (gregorian_facts.from_day_number_valid date)). Qed.

Lemma quarter_month_bounds :
  1 <= m - (m - 1) mod 3 <= 12 /\
  gregorian.month_index y m - 2 <=
    gregorian.month_index y (m - (m - 1) mod 3) <= gregorian.month_index y m.
Proof.
  pose proof month_of_bounds; unfold gregorian.month_index.
  Z.to_euclidean_division_equations; lia.
Qed.

(** [find_nearest] gives a date on or before the one it is given. *)
Lemma find_nearest_le (skip : skip_quantum_t) : find_nearest date skip <= date.
Proof.
  pose proof month_of_bounds as Hm.
  pose proof (gregorian_facts.month_start_le_date date) as Hle.
  fold y m in Hle.
  destruct skip; cbn [find_nearest]; fold y m.
  - lia.
  - unfold gregorian.sub_days.
    pose proof (Z.mod_pos_bound
                  (gregorian.day_of_week date - start_of_week) 7); lia.
  - rewrite make_date_month_start by trivial; lia.
  - destruct quarter_month_bounds as [Hq Hk].
    rewrite make_date_month_start by trivial.
    pose proof (gregorian_facts.month_start_le _ _ (proj2 Hk)); lia.
  - rewrite make_date_month_start by lia.
    apply Z.le_trans with (2 := Hle), gregorian_facts.month_start_le.
    unfold gregorian.month_index; lia.
Qed.

(** One forward duration from that boundary ends after the date. *)
Lemma find_nearest_period (d : date_duration_t) :
  steps_forward d -> date < add d (find_nearest date (quantum d)).
Proof.
  intros [Hpos Hq].
  pose proof month_of_bounds as Hm.
  pose proof (gregorian_facts.date_lt_next_month_start date) as Hlt.
  fold y m in Hlt.
  assert (Hnext : forall k, gregorian.month_index y m + 1 <= k ->
                            date < gregorian.month_start k).
  { intros k Hk; pose proof (gregorian_facts.month_start_le _ _ Hk); lia. }
  unfold add; destruct (quantum d) eqn:Eq; cbn [find_nearest]; fold y m.
  - unfold gregorian.add_days; lia.
  - unfold gregorian.add_weeks, gregorian.sub_days.
    pose proof (Z.mod_pos_bound
                  (gregorian.day_of_week date - start_of_week) 7); lia.
  - rewrite make_date_month_start by trivial.
    rewrite gregorian_facts.add_months_month_start; apply Hnext; lia.
  - destruct quarter_month_bounds as [Hb Hk].
    specialize (Hq eq_refl).
    rewrite int_wrap_small by (unfold is_int, int_min; lia).
    rewrite make_date_month_start by trivial.
    rewrite gregorian_facts.add_months_month_start; apply Hnext; lia.
  - rewrite make_date_month_start by lia; unfold gregorian.add_years.
    rewrite gregorian_facts.add_months_month_start; apply Hnext.
    unfold gregorian.month_index; lia.
Qed.

End boundaries.

(** ** The scenarios, evaluated *)

Example scenario_A_stabilized :
  let i := @stabilize scenario scenario_A None in
  start i = Some (gregorian.make_date 2021 3 1) /\
  end_of_duration i = Some (gregorian.make_date 2021 4 1) /\
  inclusive_end i = Some (gregorian.make_date 2021 3 31).
Proof. vm_compute; repeat split. Qed.

Example scenario_B_stabilized :
  let i := @stabilize scenario scenario_B None in
  start i = Some (gregorian.make_date 2021 3 8) /\
  aligned i = true /\
  end_of_duration i = Some (gregorian.make_date 2021 3 22).
Proof. vm_compute; repeat split. Qed.

Example scenario_C_bounds :
  @date_range_t_begin scenario scenario_C None =
    Some (gregorian.make_date 2020 1 1) /\
  @date_range_t_end scenario scenario_C None =
    Some (gregorian.make_date 2021 1 1).
Proof. vm_compute; split; reflexivity. Qed.

Example scenario_D_steps :
  let i := snd (operator_incr scenario_D) in
  fst (operator_incr scenario_D) = returned tt /\
  start i = Some (gregorian.make_date 2021 6 1) /\
  operator_incr i = (raised OutOfBounds, i).
Proof. vm_compute; repeat split. Qed.

(** ** The invariant of the interval *)

Lemma resolve_end_fields (i : date_interval_t) :
  range (resolve_end i) = range i /\ start (resolve_end i) = start i /\
  finish (resolve_end i) = finish i /\ aligned (resolve_end i) = aligned i /\
  next (resolve_end i) = next i /\ duration (resolve_end i) = duration i.
Proof.
  unfold resolve_end; destruct (start i) eqn:Hs, (duration i) eqn:Hd;
    cbn; rewrite ?Hs, ?Hd; repeat split.
Qed.

Lemma resolve_end_resolved (i : date_interval_t) : end_resolved (resolve_end i).
Proof.
  intros s d Hs Hd.
  destruct (resolve_end_fields i) as (_ & Hstart & _ & _ & _ & Hdur).
  rewrite Hstart in Hs; rewrite Hdur in Hd.
  unfold resolve_end; rewrite Hs, Hd; reflexivity.
Qed.

Lemma operator_incr_resolved (i : date_interval_t) :
  end_resolved i -> end_resolved (snd (operator_incr i)).
Proof.
  intros Hi; unfold operator_incr.
  destruct (exceeds _ _); cbn [snd]; auto using resolve_end_resolved.
Qed.

Lemma started_resolved `{externs} (i : date_interval_t) (date : date_t) :
  end_resolved i -> end_resolved (started i date).
Proof.
  intros Hi; unfold started.
  destruct (is_valid i); [exact Hi | apply resolve_end_resolved].
Qed.

Lemma find_period_resolved `{externs} (fuel : nat) (i i' : date_interval_t)
    (date : date_t) (o : outcome bool) :
  end_resolved i -> find_period fuel i date = Some (o, i') -> end_resolved i'.
Proof.
  intros Hi; pose proof (started_resolved i date Hi) as H0.
  unfold find_period.
  destruct (outside_bounds _ date); [intros [= _ <-]; exact Hi|].
  destruct (in_cached_period _ date); [intros [= _ <-]; exact H0|].
  destruct (duration (started i date)) as [d|] eqn:Hd;
    [|intros [= _ <-]; exact Hi].
  destruct (locate fuel d date _) as [s'|]; [|discriminate].
  intros [= _ <-] s d' Hs Hd'; cbn in *.
  rewrite Hd in Hd'; injection Hs as <-; injection Hd' as <-; reflexivity.
Qed.

Lemma stabilized_resolved `{externs} (i : date_interval_t) :
  stabilized i -> end_resolved i.
Proof.
  induction 1.
  - apply resolve_end_resolved.
  - apply resolve_end_resolved.
  - now apply operator_incr_resolved.
  - eapply find_period_resolved; eassumption.
Qed.

(** An assignment to [start] alone leaves the old end behind;
    [resolve_end] brings the two together again. *)
Example start_assignment_needs_resolve_end :
  let i := set_start (Some (gregorian.make_date 2021 7 1)) scenario_D in
  ~ end_resolved i /\
  end_of_duration (resolve_end i) = Some (gregorian.make_date 2021 8 1).
Proof.
  split; [|vm_compute; reflexivity].
  intros Hres; specialize (Hres _ _ eq_refl eq_refl); vm_compute in Hres.
  discriminate.
Qed.

(** C1: in an interval with [start] and [duration] defined that
    [resolve_end] has gone over, [end_of_duration] is [duration.add(start)];
    [resolve_end] brings that about for the [start] and [duration] it finds,
    so also after any assignment to [start]; and every interval that
    [stabilize] produces, and every interval that stepping and
    [find_period] make of one, satisfies it. *)
Theorem end_of_duration_invariant (E : externs) :
  (forall i s d, start i = Some s -> duration i = Some d ->
     start (resolve_end i) = Some s /\
     duration (resolve_end i) = Some d /\
     end_of_duration (resolve_end i) = Some (add d s)) /\
  (forall i new_start, end_resolved (resolve_end (set_start new_start i))) /\
  (forall i, stabilized i -> end_resolved i).
Proof.
  split; [|split].
  - intros i s d Hs Hd.
    destruct (resolve_end_fields i) as (_ & Hstart & _ & _ & _ & Hdur).
    rewrite Hstart, Hdur; repeat split; trivial.
    apply resolve_end_resolved; congruence.
  - intros i new_start; apply resolve_end_resolved.
  - apply @stabilized_resolved.
Qed.

Lemma end_of_duration_invariant_witness :
  @stabilized scenario (@stabilize scenario scenario_B None) /\
  end_of_duration (@stabilize scenario scenario_B None) =
    Some (add (date_duration_t_ctor WEEKS 2) (gregorian.make_date 2021 3 8)).
Proof.
  split.
  - constructor.
  - apply (proj2 (proj2 (end_of_duration_invariant scenario))).
    + constructor.
    + vm_compute; reflexivity.
    + vm_compute; reflexivity.
Defined.

(** ** Equality of intervals *)

(** C2: [a == b] holds exactly when both have no [start], or both have one
    and the two dates are equal; what the other members hold does not
    matter. *)
Theorem operator_eq_start_only (a b : date_interval_t) :
  (operator_eq a b = true <->
   (start a = None /\ start b = None) \/
   (exists s t, start a = Some s /\ start b = Some t /\ s = t)) /\
  (forall a' b', start a' = start a -> start b' = start b ->
                 operator_eq a' b' = operator_eq a b).
Proof.
  split.
  - unfold operator_eq, optional_date_eqb.
    destruct (start a) as [s|], (start b) as [t|]; cbn.
    + rewrite andb_diag, Z.eqb_eq; split.
      * intros ->; right; exists t, t; auto.
      * intros [[Hn _] | (s' & t' & Hs & Ht & Heq)]; congruence.
    + split; [discriminate|].
      intros [[Hn _] | (s' & t' & _ & Ht & _)]; discriminate.
    + split; [discriminate|].
      intros [[_ Hn] | (s' & t' & Hs & _ & _)]; discriminate.
    + split; auto.
  - intros a' b' Ha Hb; unfold operator_eq; rewrite Ha, Hb; reflexivity.
Qed.

Lemma operator_eq_start_only_witness :
  operator_eq scenario_D zero_length_interval = true.
Proof.
  apply (proj2 (proj1 (operator_eq_start_only scenario_D zero_length_interval))).
  right; exists (gregorian.make_date 2021 5 1), (gregorian.make_date 2021 5 1).
  repeat split.
Defined.

(** ** Specifiers, ranges and their union *)

(** C5: [implied_duration] is one day when the day or the weekday is
    present; else one month when the month is; else one year when the year
    is; and nothing when all four fields are absent. *)
Theorem implied_duration_priority (s : date_specifier_t) :
  (day s <> None \/ wday s <> None ->
   implied_duration s = Some (date_duration_t_ctor DAYS 1)) /\
  (day s = None -> wday s = None -> month s <> None ->
   implied_duration s = Some (date_duration_t_ctor MONTHS 1)) /\
  (day s = None -> wday s = None -> month s = None -> year s <> None ->
   implied_duration s = Some (date_duration_t_ctor YEARS 1)) /\
  (day s = None -> wday s = None -> month s = None -> year s = None ->
   implied_duration s = None).
Proof.
  unfold implied_duration.
  destruct (day s), (wday s), (month s), (year s); cbn;
    repeat split; intros; try reflexivity; try congruence; tauto.
Qed.

Lemma implied_duration_priority_witness :
  implied_duration (date_specifier_t_ctor (Some 2021) (Some 3) None None) =
    Some (date_duration_t_ctor MONTHS 1) /\
  implied_duration (date_specifier_t_ctor (Some 2021) (Some 3) None (Some 1)) =
    Some (date_duration_t_ctor DAYS 1).
Proof.
  split.
  - apply (proj1 (proj2 (implied_duration_priority
                           (date_specifier_t_ctor (Some 2021) (Some 3)
                                                  None None))));
      [reflexivity | reflexivity | discriminate].
  - apply (proj1 (implied_duration_priority
                    (date_specifier_t_ctor (Some 2021) (Some 3)
                                           None (Some 1)))).
    right; discriminate.
Defined.

(** C6: [date_range_t::end] is [none] when the range has no upper
    specifier; with one, it is that specifier's [end] when the upper bound
    is inclusive and that specifier's [begin] when it is not. *)
Theorem date_range_t_end_cases (E : externs) (r : date_range_t)
    (current_year : optional_year) :
  (range_end r = None -> date_range_t_end r current_year = None) /\
  (forall upper, range_end r = Some upper -> end_inclusive r = true ->
     date_range_t_end r current_year =
       Some (date_specifier_t_end upper current_year)) /\
  (forall upper, range_end r = Some upper -> end_inclusive r = false ->
     date_range_t_end r current_year =
       Some (date_specifier_t_begin upper current_year)).
Proof.
  unfold date_range_t_end; repeat split.
  - intros ->; reflexivity.
  - intros upper -> ->; reflexivity.
  - intros upper -> ->; reflexivity.
Qed.

Lemma date_range_t_end_cases_witness :
  @date_range_t_end scenario scenario_C None =
    Some (gregorian.make_date 2021 1 1).
Proof.
  rewrite (proj2 (proj2 (date_range_t_end_cases scenario scenario_C None))
             (date_specifier_t_ctor (Some 2021) None None None));
    reflexivity.
Defined.

(** C7, as the specification states it, fails: the class has no
    containment member to forward, and it can hold neither a specifier nor
    a range, as the default-constructed object does, and then has no
    bounds. *)
Lemma no_containment_member :
  ~ ((exists m, member_name m = "is_within"%string) \/
     (forall v, (exists s, v = held_specifier s) \/
                (exists r, v = held_range r))).
Proof.
  intros [[m Hm] | Hall].
  - destruct m; discriminate Hm.
  - destruct (Hall date_specifier_or_range_t_default)
      as [[s Hs] | [r Hr]]; discriminate.
Qed.

(** C7, amended: [date_specifier_or_range_t] hands [begin] and [end] to the
    specifier or the range it holds, and holding the placeholder it has
    neither bound.  Holding a specifier [s] it answers both as the range
    from [s] to [s] with an inclusive upper bound does, and the dates
    between the two answers are those within that range, and those within
    [s]. *)
Theorem specifier_as_inclusive_range (E : externs) (s : date_specifier_t)
    (current_year : optional_year) (date : date_t) :
  let v := held_specifier s in
  let r := mk_date_range_t (Some s) (Some s) true in
  (date_specifier_or_range_t_begin v current_year =
     Some (date_specifier_t_begin s current_year) /\
   date_specifier_or_range_t_end v current_year =
     Some (date_specifier_t_end s current_year)) /\
  (forall n,
     date_specifier_or_range_t_begin (held_int n) current_year = None /\
     date_specifier_or_range_t_end (held_int n) current_year = None) /\
  (forall r',
     date_specifier_or_range_t_begin (held_range r') current_year =
       date_range_t_begin r' current_year /\
     date_specifier_or_range_t_end (held_range r') current_year =
       date_range_t_end r' current_year) /\
  (date_specifier_or_range_t_begin v current_year =
     date_range_t_begin r current_year /\
   date_specifier_or_range_t_end v current_year =
     date_range_t_end r current_year /\
   within_bounds (date_specifier_or_range_t_begin v current_year)
                 (date_specifier_or_range_t_end v current_year) date =
     date_range_t_is_within r date current_year /\
   within_bounds (date_specifier_or_range_t_begin v current_year)
                 (date_specifier_or_range_t_end v current_year) date =
     date_specifier_t_is_within s date current_year).
Proof.
  cbv zeta; split; [|split; [|split]].
  - split; reflexivity.
  - intros n; split; reflexivity.
  - intros r'; split; reflexivity.
  - unfold within_bounds, date_range_t_is_within, date_specifier_t_is_within,
      date_range_t_begin, date_range_t_end,
      date_specifier_or_range_t_begin, date_specifier_or_range_t_end;
      cbn [range_begin range_end end_inclusive].
    repeat split.
Qed.

(** C9: [date_interval_t::begin] is [start] when that is set, whatever the
    window says; only without a [start] is it the window's [begin], and
    [none] without a window.  In the same way [date_interval_t::end] is
    [finish], else the window's [end], else [none]. *)
Theorem interval_bounds_shadow_window (E : externs) (i : date_interval_t)
    (current_year : optional_year) :
  (forall s, start i = Some s ->
     date_interval_t_begin i current_year = Some s) /\
  (forall w, start i = None -> range i = Some w ->
     date_interval_t_begin i current_year =
       date_specifier_or_range_t_begin w current_year) /\
  (start i = None -> range i = None ->
     date_interval_t_begin i current_year = None) /\
  (forall f, finish i = Some f ->
     date_interval_t_end i current_year = Some f) /\
  (forall w, finish i = None -> range i = Some w ->
     date_interval_t_end i current_year =
       date_specifier_or_range_t_end w current_year) /\
  (finish i = None -> range i = None ->
     date_interval_t_end i current_year = None).
Proof.
  unfold date_interval_t_begin, date_interval_t_end; repeat split.
  - intros s ->; reflexivity.
  - intros w -> ->; reflexivity.
  - intros -> ->; reflexivity.
  - intros f ->; reflexivity.
  - intros w -> ->; reflexivity.
  - intros -> ->; reflexivity.
Qed.

Lemma interval_bounds_shadow_window_witness :
  @date_interval_t_begin scenario (@stabilize scenario scenario_B None) None =
    Some (gregorian.make_date 2021 3 8) /\
  @date_interval_t_begin scenario scenario_B None =
    Some (gregorian.make_date 2021 3 10).
Proof.
  split.
  - apply (proj1 (interval_bounds_shadow_window
                    scenario (@stabilize scenario scenario_B None) None)).
    vm_compute; reflexivity.
  - rewrite (proj1 (proj2 (interval_bounds_shadow_window
                             scenario scenario_B None))
               (held_range
                  (date_range_t_ctor
                     (Some (date_specifier_t_ctor (Some 2021) (Some 3)
                                                  (Some 10) None))
                     None)));
      reflexivity.
Defined.

(** C10: a range that the public constructor built, or a copy of one, has
    an exclusive upper bound, so with an upper specifier its [end] is that
    specifier's [begin]; a range with an inclusive upper bound was not
    built that way. *)
Theorem public_ranges_are_exclusive (E : externs) :
  (forall b e, end_inclusive (date_range_t_ctor b e) = false) /\
  (forall r, publicly_built r ->
     end_inclusive r = false /\
     forall upper current_year, range_end r = Some upper ->
       date_range_t_end r current_year =
         Some (date_specifier_t_begin upper current_year)) /\
  (forall r, end_inclusive r = true -> ~ publicly_built r).
Proof.
  assert (Hbuilt : forall r, publicly_built r -> end_inclusive r = false).
  { induction 1; cbn; trivial. }
  split; [reflexivity | split].
  - intros r Hr; split; [auto|].
    intros upper current_year Hu.
    unfold date_range_t_end; rewrite Hu, (Hbuilt r Hr); reflexivity.
  - intros r Hinc Hr; rewrite (Hbuilt r Hr) in Hinc; discriminate.
Qed.

Lemma public_ranges_are_exclusive_witness :
  publicly_built scenario_C /\
  @date_range_t_end scenario scenario_C None =
    Some (gregorian.make_date 2021 1 1).
Proof.
  assert (Hb : publicly_built scenario_C) by constructor.
  split; [exact Hb|].
  rewrite (proj2 (proj1 (proj2 (public_ranges_are_exclusive scenario))
                        scenario_C Hb)
             (date_specifier_t_ctor (Some 2021) None None None) None);
    reflexivity.
Defined.

(** ** Lengths of durations *)

(** C8, as the specification states it, fails: the constructor takes any
    [int] for the length, and a negative one is kept. *)
Lemma negative_length_constructible :
  ~ (forall d, constructible d -> 0 <= length d).
Proof.
  intros Hall.
  assert (Hc : constructible (date_duration_t_ctor DAYS (-1)))
    by (constructor; unfold is_int, int_min, int_max; lia).
  specialize (Hall _ Hc); cbn in Hall; lia.
Qed.

(** C8, amended: the default-constructed duration has length 0, the
    constructor keeps the length it is given and a copy has the length of
    its source; so the length of a constructed duration is an [int], and it
    is not negative exactly when the length given was not. *)
Theorem constructed_length (q : skip_quantum_t) (l : Z) (d : date_duration_t) :
  length date_duration_t_default = 0 /\
  length (date_duration_t_ctor q l) = l /\
  length (date_duration_t_copy d) = length d /\
  (0 <= length (date_duration_t_ctor q l) <-> 0 <= l) /\
  (constructible d -> is_int (length d)).
Proof.
  split; [reflexivity | split; [reflexivity | split; [reflexivity | split]]].
  - cbn; tauto.
  - induction 1; cbn; trivial.
    unfold is_int, int_min, int_max; lia.
Qed.

Lemma constructed_length_witness :
  is_int (length (date_duration_t_copy (date_duration_t_ctor WEEKS 2))).
Proof.
  apply (proj2 (proj2 (proj2 (proj2
           (constructed_length
              WEEKS 2 (date_duration_t_copy (date_duration_t_ctor WEEKS 2))))))).
  do 2 constructor; unfold is_int, int_min, int_max; lia.
Defined.

(** ** Finding the period of a date *)

(** A date is outside two optional bounds when there is a lower bound
    after it or an upper bound on or before it. *)
Lemma within_bounds_false (b e : option date_t) (date : date_t) :
  within_bounds b e date = false <->
  (exists b', b = Some b' /\ date < b') \/
  (exists e', e = Some e' /\ e' <= date).
Proof.
  unfold within_bounds; rewrite andb_false_iff.
  destruct b as [b'|], e as [e'|]; rewrite ?Z.leb_gt, ?Z.ltb_ge;
    (split;
     [ intros [H | H]; try discriminate H;
       first [ left; eexists; split; [reflexivity | exact H]
             | right; eexists; split; [reflexivity | exact H] ]
     | intros [(x & Hx & H) | (x & Hx & H)]; try discriminate Hx;
       injection Hx as <-; auto ]).
Qed.

Lemma outside_bounds_iff `{externs} (i : date_interval_t) (date : date_t) :
  outside_bounds i date = true <->
  let current_year := Some (gregorian.year_of date) in
  (exists b, date_interval_t_begin i current_year = Some b /\ date < b) \/
  (exists e, date_interval_t_end i current_year = Some e /\ e <= date).
Proof.
  unfold outside_bounds; cbv zeta.
  rewrite negb_true_iff; apply within_bounds_false.
Qed.

(** Inside the bounds a date is not before [start] and is before
    [finish]. *)
Lemma inside_bounds `{externs} (i : date_interval_t) (date : date_t) :
  outside_bounds i date = false ->
  (forall s, start i = Some s -> s <= date) /\
  (forall f, finish i = Some f -> date < f).
Proof.
  unfold outside_bounds, within_bounds, date_interval_t_begin,
    date_interval_t_end; cbv zeta.
  rewrite negb_false_iff, andb_true_iff; intros [Hb He]; split.
  - intros s Hs; rewrite Hs in Hb; now apply Z.leb_le.
  - intros f Hf; rewrite Hf in He; now apply Z.ltb_lt.
Qed.

(** The cached period holds a date exactly when the date lies between
    [start] and [end_of_duration]. *)
Lemma in_cached_period_window (i : date_interval_t) (date : date_t) :
  in_cached_period i date = true <->
  exists s e, window i = Some (s, e) /\ s <= date < e.
Proof.
  unfold in_cached_period.
  destruct (window i) as [[s e]|]; split.
  - rewrite andb_true_iff, Z.leb_le, Z.ltb_lt; intros Hin; exists s, e; auto.
  - intros (s' & e' & [= <- <-] & Hin).
    rewrite andb_true_iff, Z.leb_le, Z.ltb_lt; exact Hin.
  - discriminate.
  - intros (s & e & Hw & _); discriminate.
Qed.

(** What the search finds is a number of durations after where it began,
    ends after the date, and every period before it ends on or before the
    date. *)
Lemma locate_found (fuel : nat) (d : date_duration_t) (date : date_t) :
  forall scan s', locate fuel d date scan = Some s' ->
    exists k, s' = Nat.iter k (add d) scan /\ date < add d s' /\
              forall j, (j < k)%nat -> add d (Nat.iter j (add d) scan) <= date.
Proof.
  induction fuel as [|fuel IH]; intros scan s'; cbn [locate];
    destruct (Z.ltb_spec date (add d scan)) as [Hlt | Hge].
  1, 3: intros [= <-]; exists O; repeat split; trivial; intros j Hj; lia.
  - discriminate.
  - intros Hloc; destruct (IH _ _ Hloc) as (k & Hk & Hend & Hbefore).
    exists (S k); rewrite Nat.iter_succ_r; repeat split; trivial.
    intros [|j] Hj; [exact Hge|].
    rewrite Nat.iter_succ_r; apply Hbefore; lia.
Qed.

(** With a duration that steps forward the search ends: as many periods as
    there are days from the beginning to the date are enough. *)
Lemma locate_enough (fuel : nat) (d : date_duration_t) (date : date_t) :
  steps_forward d ->
  forall scan, (Z.to_nat (date - scan) <= fuel)%nat ->
               exists s', locate fuel d date scan = Some s'.
Proof.
  intros Hfw; induction fuel as [|fuel IH]; intros scan Hfuel; cbn [locate];
    destruct (Z.ltb_spec date (add d scan)) as [Hlt | Hge]; eauto;
    pose proof (add_steps_forward d scan Hfw).
  - lia.
  - apply IH; lia.
Qed.

Lemma locate_more (fuel fuel' : nat) (d : date_duration_t) (date : date_t) :
  (fuel <= fuel')%nat ->
  forall scan s', locate fuel d date scan = Some s' ->
                  locate fuel' d date scan = Some s'.
Proof.
  revert fuel'; induction fuel as [|fuel IH]; intros fuel' Hle scan s';
    cbn [locate]; destruct (Z.ltb_spec date (add d scan)) as [Hlt | Hge].
  - intros [= <-]; destruct fuel'; cbn [locate];
      destruct (Z.ltb_spec date (add d scan)); trivial; lia.
  - discriminate.
  - intros [= <-]; destruct fuel'; cbn [locate];
      destruct (Z.ltb_spec date (add d scan)); trivial; lia.
  - destruct fuel' as [|fuel']; [lia|]; cbn [locate].
    destruct (Z.ltb_spec date (add d scan)); [lia|].
    apply IH; lia.
Qed.

(** With a duration that moves nothing the search never ends. *)
Lemma locate_stuck (fuel : nat) (d : date_duration_t) (date scan : date_t) :
  add d scan = scan -> scan <= date -> locate fuel d date scan = None.
Proof.
  intros Hsame Hle; induction fuel as [|fuel IH]; cbn [locate];
    rewrite Hsame; destruct (Z.ltb_spec date scan); trivial; lia.
Qed.

(** [k] steps from an interval whose end is resolved, none of them past
    [finish]. *)
Lemma advance_steps (k : nat) (i : date_interval_t) (s : date_t)
    (d : date_duration_t) :
  start i = Some s -> duration i = Some d -> end_resolved i ->
  (forall j, (j < k)%nat ->
     exceeds (Some (add d (Nat.iter j (add d) s))) (finish i) = false) ->
  advance k i =
  mk_date_interval_t (range i) (Some (Nat.iter k (add d) s)) (finish i)
    (aligned i) (next i) (Some d) (Some (add d (Nat.iter k (add d) s))).
Proof.
  intros Hs Hd Hres; induction k as [|k IH]; intros Hfin.
  - pose proof (Hres s d Hs Hd) as He.
    destruct i as [w st f a n du e]; cbn in Hs, Hd, He |- *.
    subst st du e; reflexivity.
  - change (advance (S k) i) with (snd (operator_incr (advance k i))).
    rewrite IH by (intros; apply Hfin; lia).
    unfold operator_incr; cbn [end_of_duration finish].
    rewrite (Hfin k) by lia; reflexivity.
Qed.




(** The period of 2021-03-30 in scenario B is the one that one step
    reaches, on the grid of two weeks from the aligned start. *)
Example scenario_B_find_period :
  @find_period scenario 30 (@stabilize scenario scenario_B None)
    (gregorian.make_date 2021 3 30) =
  Some (returned true, advance 1 (@stabilize scenario scenario_B None)) /\
  window (advance 1 (@stabilize scenario scenario_B None)) =
  Some (gregorian.make_date 2021 3 22, gregorian.make_date 2021 4 5).
Proof. vm_compute; split; reflexivity. Qed.

(** ** Stepping *)

(** One step of an interval whose end is resolved and whose duration steps
    forward. *)
Lemma operator_incr_step (i : date_interval_t) (s : date_t)
    (d : date_duration_t) :
  start i = Some s -> duration i = Some d -> end_resolved i ->
  end_of_duration i = Some (add d s) /\
  window i = Some (s, add d s) /\
  forall i', operator_incr i = (returned tt, i') ->
    i' = mk_date_interval_t (range i) (Some (add d s)) (finish i) (aligned i)
           (next i) (Some d) (Some (add d (add d s))).
Proof.
  intros Hs Hd Hres.
  pose proof (Hres s d Hs Hd) as He.
  destruct i as [w st f a n du e]; cbn in Hs, Hd, He; subst st du e.
  split; [reflexivity | split; [reflexivity|]].
  intros i'; unfold operator_incr; cbn [end_of_duration finish].
  destruct (exceeds _ _); [discriminate|].
  intros [= <-]; reflexivity.
Qed.

Lemma periods_contiguous (n : nat) :
  forall (i : date_interval_t) (s : date_t) (d : date_duration_t),
    start i = Some s -> duration i = Some d -> steps_forward d ->
    end_resolved i ->
    exists l, periods n i = (s, add d s) :: l /\
              contiguous ((s, add d s) :: l).
Proof.
  induction n as [|n IH]; intros i s d Hs Hd Hfw Hres;
    destruct (operator_incr_step i s d Hs Hd Hres) as (He & Hw & Hstep);
    pose proof (add_steps_forward d s Hfw) as Hlt;
    cbn [periods]; rewrite Hw.
  - exists []; split; [reflexivity | now constructor].
  - destruct (operator_incr i) as [[[]|err] i'] eqn:Hop.
    + specialize (Hstep i' eq_refl).
      destruct (IH i' (add d s) d) as (l & Hl & Hc); trivial.
      * subst i'; reflexivity.
      * subst i'; reflexivity.
      * subst i'; intros s' d' [= <-] [= <-]; reflexivity.
      * rewrite Hl; eexists; split; [reflexivity|].
        now constructor.
    + exists []; split; [reflexivity | now constructor].
Qed.

(** C4, as the specification states it, fails: with a duration of length
    zero a step is taken and [start] stays where it was. *)
Lemma zero_length_step_not_increasing :
  ~ (forall (i i' : date_interval_t) (s s' : date_t),
       end_resolved i -> operator_incr i = (returned tt, i') ->
       start i = Some s -> start i' = Some s' -> s < s').
Proof.
  intros Hall.
  assert (Hres : end_resolved zero_length_interval).
  { intros s d [= <-] [= <-]; vm_compute; reflexivity. }
  specialize (Hall zero_length_interval (snd (operator_incr zero_length_interval))
                   (gregorian.make_date 2021 5 1)
                   (gregorian.make_date 2021 5 1) Hres eq_refl eq_refl eq_refl).
  lia.
Qed.

(** C4, amended: in an interval whose [end_of_duration] is resolved and
    whose duration steps forward, a step that is taken puts [start] on the
    previous [end_of_duration] and resolves the end again, so that the
    windows of repeated steps are not empty and each begins where the one
    before it ends; the step is taken unless the new [start] is after an
    explicit [finish], and then the step is refused and the interval is as
    before. *)
Theorem stepping_contiguous (i : date_interval_t) (s : date_t)
    (d : date_duration_t) :
  start i = Some s -> duration i = Some d -> steps_forward d ->
  end_resolved i ->
  (forall n, contiguous (periods n i)) /\
  (forall i', operator_incr i = (returned tt, i') ->
     start i' = end_of_duration i /\
     window i = Some (s, add d s) /\
     window i' = Some (add d s, add d (add d s)) /\
     s < add d s < add d (add d s) /\
     end_resolved i' /\
     (forall f, finish i = Some f -> add d s <= f)) /\
  (forall f, finish i = Some f -> f < add d s ->
     operator_incr i = (raised OutOfBounds, i)) /\
  ((forall f, finish i = Some f -> add d s <= f) ->
   exists i', operator_incr i = (returned tt, i')).
Proof.
  intros Hs Hd Hfw Hres.
  destruct (operator_incr_step i s d Hs Hd Hres) as (He & Hw & Hstep).
  split; [|split; [|split]].
  - intros n.
    destruct (periods_contiguous n i s d Hs Hd Hfw Hres) as (l & -> & Hc).
    exact Hc.
  - intros i' Hop.
    pose proof (Hstep i' Hop) as Hi'.
    pose proof (add_steps_forward d s Hfw).
    pose proof (add_steps_forward d (add d s) Hfw).
    repeat split; trivial; try lia.
    + subst i'; rewrite He; reflexivity.
    + subst i'; reflexivity.
    + subst i'; intros s' d' [= <-] [= <-]; reflexivity.
    + intros f Hf; revert Hop; unfold operator_incr, exceeds.
      rewrite He, Hf.
      destruct (Z.ltb_spec f (add d s)); [discriminate | lia].
  - intros f Hf Hlt; unfold operator_incr, exceeds; rewrite He, Hf.
    destruct (Z.ltb_spec f (add d s)); [reflexivity | lia].
  - intros Hfin; unfold operator_incr, exceeds; rewrite He.
    destruct (finish i) as [f|]; [|eexists; reflexivity].
    specialize (Hfin f eq_refl).
    destruct (Z.ltb_spec f (add d s)); [lia | eexists; reflexivity].
Qed.

Lemma stepping_contiguous_witness :
  contiguous (periods 3 scenario_D) /\
  operator_incr (snd (operator_incr scenario_D)) =
    (raised OutOfBounds, snd (operator_incr scenario_D)).
Proof.
  assert (Hfw : steps_forward (date_duration_t_ctor MONTHS 1))
    by (unfold steps_forward; cbn; split; [lia | discriminate]).
  split.
  - apply (proj1 (stepping_contiguous scenario_D (gregorian.make_date 2021 5 1)
                    (date_duration_t_ctor MONTHS 1) eq_refl eq_refl Hfw
                    ltac:(intros s d [= <-] [= <-]; vm_compute; reflexivity))).
  - apply (proj1 (proj2 (proj2
             (stepping_contiguous (snd (operator_incr scenario_D))
                (gregorian.make_date 2021 6 1) (date_duration_t_ctor MONTHS 1)
                eq_refl eq_refl Hfw
                ltac:(intros s d [= <-] [= <-]; vm_compute; reflexivity))))
           (gregorian.make_date 2021 6 1) eq_refl).
    vm_compute; reflexivity.
Defined.

(** ** Month steps and the order of dates *)

Module gregorian_steps.
Import gregorian gregorian_facts calendar_axis.

Lemma date_as_month_start (d : date) :
  d = month_start (index_of d) + (day_of d - 1).
Proof.
  pose proof (from_day_number_valid d) as [Hm _].
  pose proof (day_number_month_start (from_day_number d) Hm) as Heq.
  now rewrite day_number_from_day_number in Heq.
Qed.

Lemma day_of_bounds (d : date) :
  1 <= day_of d <= end_of_month_day (year_of d) (month_of d).
Proof. exact (proj2 (from_day_number_valid d)). Qed.

Lemma make_date_index (k dd : Z) :
  make_date (k / 12) (k mod 12 + 1) dd = month_start k + (dd - 1).
Proof.
  unfold make_date.
  rewrite day_number_month_start by (cbn [month]; div_lia).
  cbn [year month day]; rewrite month_index_div_mod; reflexivity.
Qed.

Lemma from_make_date_index (k dd : Z) :
  1 <= dd <= end_of_month_day (k / 12) (k mod 12 + 1) ->
  from_day_number (make_date (k / 12) (k mod 12 + 1) dd) =
  mk_ymd (k / 12) (k mod 12 + 1) dd.
Proof.
  intros Hdd; apply from_day_number_day_number.
  split; cbn [year month day]; [div_lia | exact Hdd].
Qed.

(** Dates are ordered by month first. *)
Lemma index_of_le (d1 d2 : date) : d1 <= d2 -> index_of d1 <= index_of d2.
Proof.
  intros Hle.
  destruct (Z_le_gt_dec (index_of d1) (index_of d2)) as [|Hgt]; trivial.
  pose proof (day_number_lt_months (from_day_number d2) (from_day_number d1)
                (from_day_number_valid d2)
                (proj1 (from_day_number_valid d1))
                (proj1 (proj2 (from_day_number_valid d1)))) as Hlt.
  rewrite !day_number_from_day_number in Hlt.
  unfold index_of, year_of, month_of in Hgt; lia.
Qed.

Lemma index_of_eq_ym (d1 d2 : date) :
  index_of d1 = index_of d2 ->
  year_of d1 = year_of d2 /\ month_of d1 = month_of d2.
Proof.
  unfold index_of, month_index, year_of, month_of.
  pose proof (proj1 (from_day_number_valid d1)).
  pose proof (proj1 (from_day_number_valid d2)).
  lia.
Qed.

Lemma arrival_day_bounds (d : date) (k' : Z) :
  1 <= arrival_day d k' <= end_of_month_day (k' / 12) (k' mod 12 + 1).
Proof.
  unfold arrival_day.
  pose proof (end_of_month_day_bounds (k' / 12) (k' mod 12 + 1)).
  pose proof (day_of_bounds d).
  destruct (day_of d =? _); lia.
Qed.

Lemma add_months_arrival (d : date) (f : Z) :
  add_months d f =
  month_start (index_of d + f) + (arrival_day d (index_of d + f) - 1).
Proof.
  rewrite <- make_date_index.
  unfold add_months, arrival_day, index_of, year_of, month_of, day_of.
  destruct (day (from_day_number d) =? _); reflexivity.
Qed.

Lemma add_months_ymd (d : date) (f : Z) :
  from_day_number (add_months d f) =
  mk_ymd ((index_of d + f) / 12) ((index_of d + f) mod 12 + 1)
         (arrival_day d (index_of d + f)).
Proof.
  rewrite add_months_arrival, <- make_date_index.
  apply from_make_date_index, arrival_day_bounds.
Qed.

(** A step of [f] months arrives [f] months further. *)
Lemma add_months_index (d : date) (f : Z) :
  index_of (add_months d f) = index_of d + f.
Proof.
  unfold index_of at 1, year_of, month_of.
  rewrite add_months_ymd; cbn [year month].
  apply month_index_div_mod.
Qed.

Lemma arrival_day_same_month (d : date) : arrival_day d (index_of d) = day_of d.
Proof.
  unfold arrival_day, index_of.
  destruct (month_index_split (year_of d) (month_of d)
              (proj1 (from_day_number_valid d))) as [Hy Hm].
  rewrite Hy, Hm.
  pose proof (day_of_bounds d).
  destruct (Z.eqb_spec (day_of d)
              (end_of_month_day (year_of d) (month_of d))); lia.
Qed.

Lemma add_months_0 (d : date) : add_months d 0 = d.
Proof.
  rewrite add_months_arrival, Z.add_0_r, arrival_day_same_month.
  symmetry; apply date_as_month_start.
Qed.

(** A step of months keeps the order of dates: the clamping can bring two
    dates of a month together, never past one another. *)
Lemma add_months_le (d1 d2 : date) (f : Z) :
  d1 <= d2 -> add_months d1 f <= add_months d2 f.
Proof.
  intros Hle.
  pose proof (index_of_le d1 d2 Hle) as Hk.
  rewrite !add_months_arrival.
  pose proof (arrival_day_bounds d1 (index_of d1 + f)) as Ha1.
  pose proof (arrival_day_bounds d2 (index_of d2 + f)) as Ha2.
  destruct (Z.eq_dec (index_of d1) (index_of d2)) as [Heq | Hne].
  - destruct (index_of_eq_ym d1 d2 Heq) as [Hy Hm].
    assert (Hdays : day_of d1 <= day_of d2).
    { rewrite (date_as_month_start d1), (date_as_month_start d2), Heq in Hle.
      lia. }
    pose proof (day_of_bounds d2) as Hb2.
    unfold arrival_day in *; rewrite Heq, Hy, Hm in *.
    destruct (Z.eqb_spec (day_of d1)
                (end_of_month_day (year_of d2) (month_of d2))),
             (Z.eqb_spec (day_of d2)
                (end_of_month_day (year_of d2) (month_of d2))); lia.
  - assert (Hlt : index_of d1 + f + 1 <= index_of d2 + f) by lia.
    apply month_start_le in Hlt; rewrite month_start_succ in Hlt; lia.
Qed.

Lemma add_months_lt_back (d : date) (f : Z) : f < 0 -> add_months d f < d.
Proof.
  intros Hf.
  rewrite add_months_arrival.
  pose proof (date_as_month_start d) as Hd0.
  pose proof (arrival_day_bounds d (index_of d + f)) as Ha.
  pose proof (day_of_bounds d) as Hd.
  assert (Hlt : index_of d + f + 1 <= index_of d) by lia.
  apply month_start_le in Hlt; rewrite month_start_succ in Hlt; lia.
Qed.

(** Up to the 27th no month clamps, and a step there and back is exact. *)
Lemma add_months_back (d : date) (f : Z) :
  day_of d <= 27 -> add_months (add_months d f) (- f) = d.
Proof.
  intros H27.
  assert (Hday : forall k', arrival_day d k' = day_of d).
  { intros k'; unfold arrival_day.
    pose proof (end_of_month_day_bounds (year_of d) (month_of d)).
    pose proof (end_of_month_day_bounds (k' / 12) (k' mod 12 + 1)).
    destruct (Z.eqb_spec (day_of d)
                (end_of_month_day (year_of d) (month_of d))); lia. }
  assert (Hd' : day_of (add_months d f) = day_of d).
  { unfold day_of at 1; rewrite add_months_ymd; cbn [day]; apply Hday. }
  rewrite (add_months_arrival (add_months d f)), add_months_index.
  replace (index_of d + f + - f) with (index_of d) by lia.
  transitivity (month_start (index_of d) + (day_of d - 1));
    [|symmetry; apply date_as_month_start].
  f_equal; f_equal.
  unfold arrival_day; rewrite Hd'.
  pose proof (end_of_month_day_bounds (year_of (add_months d f))
                (month_of (add_months d f))).
  pose proof (end_of_month_day_bounds (index_of d / 12)
                (index_of d mod 12 + 1)).
  destruct (Z.eqb_spec (day_of d)
              (end_of_month_day (year_of (add_months d f))
                 (month_of (add_months d f)))); lia.
Qed.

End gregorian_steps.

(** ** Durations and the order of dates *)

Lemma add_cases (dur : date_duration_t) (date : date_t) :
  (quantum dur = DAYS /\ add dur date = date + length dur /\
   subtract dur date = date - length dur) \/
  (quantum dur = WEEKS /\ add dur date = date + 7 * length dur /\
   subtract dur date = date - 7 * length dur) \/
  (exists f, months_of dur = Some f /\
             add dur date = gregorian.add_months date f /\
             subtract dur date = gregorian.add_months date (- f)).
Proof.
  unfold add, subtract, months_of.
  destruct (quantum dur); eauto 8.
Qed.

(** X1: [add] keeps the order of dates, for every quantum and every
    length: of two dates the later one is never moved before the other;
    for days and weeks distinct dates stay distinct. *)
Theorem add_keeps_order (dur : date_duration_t) (d1 d2 : date_t) :
  (d1 <= d2 -> add dur d1 <= add dur d2) /\
  (quantum dur = DAYS \/ quantum dur = WEEKS ->
   d1 < d2 -> add dur d1 < add dur d2).
Proof.
  unfold add, gregorian.add_days, gregorian.add_weeks, gregorian.add_years.
  destruct (quantum dur).
  1, 2: split; intros; lia.
  all: split;
    [apply gregorian_steps.add_months_le | intros [Hq | Hq]; discriminate].
Qed.

Lemma add_keeps_order_witness :
  add (date_duration_t_ctor MONTHS 1) (gregorian.make_date 2021 1 30) <=
  add (date_duration_t_ctor MONTHS 1) (gregorian.make_date 2021 1 31) /\
  add (date_duration_t_ctor WEEKS 2) (gregorian.make_date 2021 1 30) <
  add (date_duration_t_ctor WEEKS 2) (gregorian.make_date 2021 1 31).
Proof.
  split.
  - apply (proj1 (add_keeps_order (date_duration_t_ctor MONTHS 1)
                    (gregorian.make_date 2021 1 30)
                    (gregorian.make_date 2021 1 31))).
    vm_compute; discriminate.
  - apply (proj2 (add_keeps_order (date_duration_t_ctor WEEKS 2)
                    (gregorian.make_date 2021 1 30)
                    (gregorian.make_date 2021 1 31))).
    + right; reflexivity.
    + vm_compute; reflexivity.
Defined.

(** The clamping at the end of a month brings two dates together. *)
Example month_step_merges_dates :
  add (date_duration_t_ctor MONTHS 1) (gregorian.make_date 2021 1 30) =
  add (date_duration_t_ctor MONTHS 1) (gregorian.make_date 2021 1 31).
Proof. reflexivity. Qed.

(** X2: [subtract] keeps the order of dates in the same way. *)
Theorem subtract_keeps_order (dur : date_duration_t) (d1 d2 : date_t) :
  (d1 <= d2 -> subtract dur d1 <= subtract dur d2) /\
  (quantum dur = DAYS \/ quantum dur = WEEKS ->
   d1 < d2 -> subtract dur d1 < subtract dur d2).
Proof.
  unfold subtract, gregorian.sub_days, gregorian.sub_weeks,
    gregorian.sub_months, gregorian.sub_years.
  destruct (quantum dur).
  1, 2: split; intros; lia.
  all: split;
    [apply gregorian_steps.add_months_le | intros [Hq | Hq]; discriminate].
Qed.

Lemma subtract_keeps_order_witness :
  subtract (date_duration_t_ctor MONTHS 1) (gregorian.make_date 2021 3 30) <=
  subtract (date_duration_t_ctor MONTHS 1) (gregorian.make_date 2021 3 31) /\
  subtract (date_duration_t_ctor DAYS 3) (gregorian.make_date 2021 3 30) <
  subtract (date_duration_t_ctor DAYS 3) (gregorian.make_date 2021 3 31).
Proof.
  split.
  - apply (proj1 (subtract_keeps_order (date_duration_t_ctor MONTHS 1)
                    (gregorian.make_date 2021 3 30)
                    (gregorian.make_date 2021 3 31))).
    vm_compute; discriminate.
  - apply (proj2 (subtract_keeps_order (date_duration_t_ctor DAYS 3)
                    (gregorian.make_date 2021 3 30)
                    (gregorian.make_date 2021 3 31))).
    + left; reflexivity.
    + vm_compute; reflexivity.
Defined.

Lemma int_wrap_0 : int_wrap 0 = 0.
Proof. reflexivity. Qed.

(** X3: a duration of length zero, such as the default-constructed one,
    moves no date, whatever its quantum. *)
Theorem zero_length_moves_nothing (dur : date_duration_t) (date : date_t) :
  length dur = 0 -> add dur date = date /\ subtract dur date = date.
Proof.
  intros H0.
  destruct (add_cases dur date) as [(_ & -> & ->) | [(_ & -> & ->) | (f & Hf & -> & ->)]];
    rewrite ?H0; try lia.
  assert (f = 0) as ->.
  { unfold months_of in Hf; rewrite H0 in Hf.
    destruct (quantum dur); try discriminate; now injection Hf as <-. }
  cbn [Z.opp]; rewrite gregorian_steps.add_months_0; auto.
Qed.

Lemma zero_length_moves_nothing_witness :
  add date_duration_t_default (gregorian.make_date 2021 1 31) =
    gregorian.make_date 2021 1 31 /\
  subtract (date_duration_t_ctor QUARTERS 0) (gregorian.make_date 2020 2 29) =
    gregorian.make_date 2020 2 29.
Proof.
  split.
  - apply (zero_length_moves_nothing date_duration_t_default); reflexivity.
  - apply (zero_length_moves_nothing (date_duration_t_ctor QUARTERS 0));
      reflexivity.
Defined.

Lemma subtract_add_days_weeks (dur : date_duration_t) (date : date_t) :
  quantum dur = DAYS \/ quantum dur = WEEKS ->
  subtract dur (add dur date) = date /\ add dur (subtract dur date) = date.
Proof.
  unfold add, subtract, gregorian.add_days, gregorian.sub_days,
    gregorian.add_weeks, gregorian.sub_weeks.
  intros [-> | ->]; split; lia.
Qed.

(** X4: for days and weeks [subtract] undoes [add] and [add] undoes
    [subtract], on every date. *)
Theorem days_and_weeks_round_trip (dur : date_duration_t) (date : date_t) :
  quantum dur = DAYS \/ quantum dur = WEEKS ->
  subtract dur (add dur date) = date /\ add dur (subtract dur date) = date.
Proof.
  intros Hq; split.
  - destruct Hq as [Hq | Hq]; unfold add, subtract; rewrite Hq;
      unfold gregorian.add_days, gregorian.sub_days,
        gregorian.add_weeks, gregorian.sub_weeks; lia.
  - destruct Hq as [Hq | Hq]; unfold add, subtract; rewrite Hq;
      unfold gregorian.add_days, gregorian.sub_days,
        gregorian.add_weeks, gregorian.sub_weeks; lia.
Qed.

Lemma days_and_weeks_round_trip_witness :
  subtract (date_duration_t_ctor WEEKS 5)
    (add (date_duration_t_ctor WEEKS 5) (gregorian.make_date 2021 1 31)) =
  gregorian.make_date 2021 1 31.
Proof.
  apply (days_and_weeks_round_trip (date_duration_t_ctor WEEKS 5)).
  right; reflexivity.
Defined.

(** For months the way back need not end on the day it began. *)
Example month_round_trip_moves_day :
  subtract (date_duration_t_ctor MONTHS 1)
    (add (date_duration_t_ctor MONTHS 1) (gregorian.make_date 2021 1 30)) =
  gregorian.make_date 2021 1 31.
Proof. reflexivity. Qed.

(** X5: [subtract] after [add] with the same duration always comes back to
    the month and year it began in. *)
Theorem add_subtract_same_month (dur : date_duration_t) (date : date_t) :
  gregorian.year_of (subtract dur (add dur date)) = gregorian.year_of date /\
  gregorian.month_of (subtract dur (add dur date)) = gregorian.month_of date.
Proof.
  apply gregorian_steps.index_of_eq_ym.
  destruct (add_cases dur date) as [(Hq & Ha & _) | [(Hq & Ha & _) | (f & Hf & Ha & _)]].
  - rewrite (proj1 (subtract_add_days_weeks dur date (or_introl Hq)));
      reflexivity.
  - rewrite (proj1 (subtract_add_days_weeks dur date (or_intror Hq)));
      reflexivity.
  - destruct (add_cases dur (add dur date))
      as [(Hq & _) | [(Hq & _) | (f' & Hf' & _ & ->)]];
      try (unfold months_of in Hf; rewrite Hq in Hf; discriminate).
    rewrite Hf in Hf'; injection Hf' as <-.
    rewrite Ha, !gregorian_steps.add_months_index; lia.
Qed.

(** X6: from a date up to the 27th of its month, [subtract] after [add]
    comes back to the date itself, for every quantum and length. *)
Theorem add_subtract_up_to_27th (dur : date_duration_t) (date : date_t) :
  gregorian.day_of date <= 27 -> subtract dur (add dur date) = date.
Proof.
  intros H27.
  destruct (add_cases dur date) as [(Hq & Ha & _) | [(Hq & Ha & _) | (f & Hf & Ha & _)]].
  - exact (proj1 (subtract_add_days_weeks dur date (or_introl Hq))).
  - exact (proj1 (subtract_add_days_weeks dur date (or_intror Hq))).
  - destruct (add_cases dur (add dur date))
      as [(Hq & _) | [(Hq & _) | (f' & Hf' & _ & ->)]];
      try (unfold months_of in Hf; rewrite Hq in Hf; discriminate).
    rewrite Hf in Hf'; injection Hf' as <-.
    rewrite Ha; now apply gregorian_steps.add_months_back.
Qed.

Lemma add_subtract_up_to_27th_witness :
  subtract (date_duration_t_ctor QUARTERS 3)
    (add (date_duration_t_ctor QUARTERS 3) (gregorian.make_date 2021 5 27)) =
  gregorian.make_date 2021 5 27.
Proof.
  apply (add_subtract_up_to_27th (date_duration_t_ctor QUARTERS 3)).
  vm_compute; discriminate.
Defined.

(** X7: a duration of [n] quarters steps as one of [3 * n] months does, as
    long as [3 * n] is an [int]. *)
Theorem quarters_are_three_months (n : Z) (date : date_t) :
  is_int (n * 3) ->
  add (date_duration_t_ctor QUARTERS n) date =
    add (date_duration_t_ctor MONTHS (n * 3)) date /\
  subtract (date_duration_t_ctor QUARTERS n) date =
    subtract (date_duration_t_ctor MONTHS (n * 3)) date.
Proof.
  intros Hn; unfold add, subtract; cbn [quantum length date_duration_t_ctor].
  rewrite (int_wrap_small _ Hn); auto.
Qed.

Lemma quarters_are_three_months_witness :
  add (date_duration_t_ctor QUARTERS 2) (gregorian.make_date 2021 8 31) =
  add (date_duration_t_ctor MONTHS 6) (gregorian.make_date 2021 8 31).
Proof.
  apply (quarters_are_three_months 2 (gregorian.make_date 2021 8 31)).
  unfold is_int, int_min, int_max; lia.
Defined.

(** Past that bound the product wraps around and the step turns back. *)
Example quarters_overflow_steps_back :
  is_int 715827883 /\
  add (date_duration_t_ctor QUARTERS 715827883) (gregorian.make_date 2021 1 1)
  < gregorian.make_date 2021 1 1.
Proof. split; [unfold is_int, int_min, int_max; lia | reflexivity]. Qed.

(** X8: a duration that steps forward puts [add] after the date and
    [subtract] before it. *)
Theorem subtract_before_add_after (dur : date_duration_t) (date : date_t) :
  steps_forward dur -> subtract dur date < date < add dur date.
Proof.
  intros Hfw; split; [|now apply add_steps_forward].
  destruct Hfw as [Hpos Hq]; unfold subtract.
  destruct (quantum dur) eqn:Eq;
    unfold gregorian.sub_days, gregorian.sub_weeks, gregorian.sub_months,
      gregorian.sub_years; try lia.
  - apply gregorian_steps.add_months_lt_back; lia.
  - specialize (Hq eq_refl).
    rewrite int_wrap_small by (unfold is_int, int_min; lia).
    apply gregorian_steps.add_months_lt_back; lia.
  - apply gregorian_steps.add_months_lt_back; lia.
Qed.

Lemma subtract_before_add_after_witness :
  subtract (date_duration_t_ctor YEARS 1) (gregorian.make_date 2020 2 29) <
    gregorian.make_date 2020 2 29 <
  add (date_duration_t_ctor YEARS 1) (gregorian.make_date 2020 2 29).
Proof.
  apply (subtract_before_add_after (date_duration_t_ctor YEARS 1)).
  unfold steps_forward; cbn; split; [lia | discriminate].
Defined.

(** ** Printing a duration *)

Lemma string_of_uint_no_space (d : Decimal.uint) :
  no_space (NilEmpty.string_of_uint d) = true.
Proof. induction d; cbn; trivial. Qed.

Lemma show_int_no_space (z : Z) : no_space (show_int z) = true.
Proof.
  unfold show_int, NilZero.string_of_int, NilZero.string_of_uint.
  destruct (Z.to_int z) as [d | d]; destruct d; cbn;
    trivial using string_of_uint_no_space.
Qed.

Lemma show_int_inj (a b : Z) : show_int a = show_int b -> a = b.
Proof.
  unfold show_int; intros Heq.
  assert (Hn : forall z, Z.to_int z <> Decimal.Pos Decimal.Nil /\
                         Z.to_int z <> Decimal.Neg Decimal.Nil).
  { intros [|p|p]; cbn; split; try discriminate;
      intros [= H]; exact (Unsigned.to_uint_nonnil p H). }
  pose proof (NilZero.isi (Z.to_int a) (proj1 (Hn a)) (proj2 (Hn a))) as Ha.
  pose proof (NilZero.isi (Z.to_int b) (proj1 (Hn b)) (proj2 (Hn b))) as Hb.
  rewrite Heq, Hb in Ha; injection Ha as Hab.
  rewrite <- (DecimalZ.of_to a), <- (DecimalZ.of_to b), Hab; reflexivity.
Qed.

(** Two texts that begin with a word and a space agree only when the
    words do and what follows does. *)
Lemma split_at_space (s1 s2 r1 r2 : string) :
  no_space s1 = true -> no_space s2 = true ->
  String.append s1 (String " " r1) = String.append s2 (String " " r2) ->
  s1 = s2 /\ r1 = r2.
Proof.
  revert s2; induction s1 as [|c s1 IH]; intros [|c' s2]; cbn;
    intros H1 H2 Heq.
  - injection Heq as ->; auto.
  - injection Heq as <- _; discriminate.
  - injection Heq as -> _; discriminate.
  - injection Heq as <- Heq.
    apply andb_true_iff in H1 as [_ H1]; apply andb_true_iff in H2 as [_ H2].
    destruct (IH s2 H1 H2 Heq) as [-> ->]; auto.
Qed.

(** X9: [to_string] tells durations apart: two durations with the same
    text have the same quantum and the same length. *)
Theorem to_string_injective (d1 d2 : date_duration_t) :
  date_duration_t_to_string d1 = date_duration_t_to_string d2 -> d1 = d2.
Proof.
  unfold date_duration_t_to_string; intros Heq.
  apply split_at_space in Heq as [Hlen Hunit];
    try apply show_int_no_space.
  apply show_int_inj in Hlen.
  destruct d1 as [q1 l1], d2 as [q2 l2]; cbn in *; subst l2.
  destruct q1, q2, (1 <? l1); try reflexivity; discriminate Hunit.
Qed.

Lemma to_string_injective_witness :
  date_duration_t_ctor MONTHS 2 = date_duration_t_copy (date_duration_t_ctor MONTHS 2).
Proof.
  apply to_string_injective; vm_compute; reflexivity.
Defined.

(** What [to_string] writes for some durations: the plural only above
    one. *)
Example to_string_samples :
  date_duration_t_to_string (date_duration_t_ctor MONTHS 2) = "2 months"%string /\
  date_duration_t_to_string (date_duration_t_ctor WEEKS 1) = "1 week"%string /\
  date_duration_t_to_string date_duration_t_default = "0 day"%string /\
  date_duration_t_to_string (date_duration_t_ctor YEARS (-3)) = "-3 year"%string.
Proof. vm_compute; repeat split. Qed.

(** ** Traits and the specifier of a date *)

(** X10: [operator==] on traits holds exactly for traits with the same
    three flags. *)
Theorem date_traits_t_eq_decides (a b : date_traits_t) :
  date_traits_t_eq a b = true <-> a = b.
Proof.
  destruct a as [ay am ad], b as [by_ bm bd]; unfold date_traits_t_eq; cbn.
  rewrite !andb_true_iff, !Bool.eqb_true_iff; split.
  - intros [[-> ->] ->]; reflexivity.
  - intros [= -> -> ->]; auto.
Qed.

(** X11: the specifier built from a date never has a weekday, so what the
    traits select decides its implied duration: a day when the day is
    copied (and always without traits), else a month, else a year, else
    none. *)
Theorem of_date_implied_duration (date : date_t)
    (traits : option date_traits_t) :
  wday (date_specifier_t_of_date date traits) = None /\
  implied_duration (date_specifier_t_of_date date traits) =
    match traits with
    | None => Some (date_duration_t_ctor DAYS 1)
    | Some t =>
        if has_day t then Some (date_duration_t_ctor DAYS 1)
        else if has_month t then Some (date_duration_t_ctor MONTHS 1)
        else if has_year t then Some (date_duration_t_ctor YEARS 1)
        else None
    end.
Proof.
  split; [reflexivity|].
  destruct traits as [[[] [] []]|]; reflexivity.
Qed.

(** ** Containment in specifiers and ranges *)

(** X12: the dates within a specifier, and those within a range, lie
    together: a date between two of them is one of them. *)
Theorem is_within_convex (E : externs) (s : date_specifier_t)
    (r : date_range_t) (current_year : optional_year) (d1 d2 d3 : date_t) :
  d1 <= d2 <= d3 ->
  (date_specifier_t_is_within s d1 current_year = true ->
   date_specifier_t_is_within s d3 current_year = true ->
   date_specifier_t_is_within s d2 current_year = true) /\
  (date_range_t_is_within r d1 current_year = true ->
   date_range_t_is_within r d3 current_year = true ->
   date_range_t_is_within r d2 current_year = true).
Proof.
  intros Hord; unfold date_specifier_t_is_within, date_range_t_is_within.
  split.
  - rewrite !andb_true_iff, !Z.leb_le, !Z.ltb_lt; lia.
  - cbv zeta.
    destruct (date_range_t_begin r current_year),
             (date_range_t_end r current_year);
      rewrite !andb_true_iff, ?Z.leb_le, ?Z.ltb_lt; intuition lia.
Qed.

Lemma is_within_convex_witness :
  @date_range_t_is_within scenario scenario_C
    (gregorian.make_date 2020 7 15) None = true.
Proof.
  apply (proj2 (is_within_convex scenario
                  (date_specifier_t_ctor None None None None) scenario_C None
                  (gregorian.make_date 2020 1 1)
                  (gregorian.make_date 2020 7 15)
                  (gregorian.make_date 2020 12 31)
                  ltac:(vm_compute; split; discriminate)));
    vm_compute; reflexivity.
Defined.

(** X13: a range whose upper bound resolves on or before its lower bound
    holds no date; so the range that the public constructor builds from
    one specifier given twice is empty. *)
Theorem range_without_room_is_empty (E : externs) (r : date_range_t)
    (current_year : optional_year) (date : date_t) :
  (forall b e, date_range_t_begin r current_year = Some b ->
               date_range_t_end r current_year = Some e -> e <= b ->
               date_range_t_is_within r date current_year = false) /\
  (forall s, date_range_t_is_within (date_range_t_ctor (Some s) (Some s))
               date current_year = false).
Proof.
  assert (Hempty : forall r' b e,
            date_range_t_begin r' current_year = Some b ->
            date_range_t_end r' current_year = Some e -> e <= b ->
            date_range_t_is_within r' date current_year = false).
  { intros r' b e Hb He Hle; unfold date_range_t_is_within.
    rewrite Hb, He; cbv zeta.
    rewrite andb_false_iff, Z.leb_gt, Z.ltb_ge; lia. }
  split; [apply Hempty|].
  intros s.
  apply (Hempty _ (date_specifier_t_begin s current_year)
                (date_specifier_t_begin s current_year)); try reflexivity; lia.
Qed.

Lemma range_without_room_is_empty_witness :
  @date_range_t_is_within scenario
    (date_range_t_ctor (Some (date_specifier_t_ctor (Some 2021) None None None))
                       (Some (date_specifier_t_ctor (Some 2020) None None None)))
    (gregorian.make_date 2020 7 15) None = false.
Proof.
  apply (proj1 (range_without_room_is_empty scenario _ None
                  (gregorian.make_date 2020 7 15))
           (gregorian.make_date 2021 1 1) (gregorian.make_date 2020 1 1));
    vm_compute; trivial; discriminate.
Defined.

(** ** Equality and the bounds of intervals *)

(** X14: [operator==] of intervals is an equivalence, and [operator!=] is
    its negation. *)
Theorem operator_eq_equivalence (a b c : date_interval_t) :
  operator_eq a a = true /\
  operator_eq a b = operator_eq b a /\
  (operator_eq a b = true -> operator_eq b c = true ->
   operator_eq a c = true) /\
  (operator_ne a b = true <-> operator_eq a b = false).
Proof.
  assert (Hiff : forall u v, operator_eq u v = true <-> start u = start v).
  { intros u v; unfold operator_eq, optional_date_eqb.
    destruct (start u) as [x|], (start v) as [y|]; cbn;
      rewrite ?andb_diag, ?Z.eqb_eq; split; congruence. }
  split; [now apply Hiff | split; [|split]].
  - destruct (operator_eq a b) eqn:Hab, (operator_eq b a) eqn:Hba; trivial.
    + apply Hiff in Hab; symmetry in Hab; apply Hiff in Hab; congruence.
    + apply Hiff in Hba; symmetry in Hba; apply Hiff in Hba; congruence.
  - intros H1 H2; apply Hiff in H1, H2; apply Hiff; congruence.
  - unfold operator_ne; apply negb_true_iff.
Qed.

Lemma operator_eq_equivalence_witness :
  operator_eq scenario_D (set_finish None zero_length_interval) = true.
Proof.
  apply (proj1 (proj2 (proj2 (operator_eq_equivalence
                                scenario_D zero_length_interval
                                (set_finish None zero_length_interval)))));
    reflexivity.
Defined.

(** X15: [inclusive_end] is set exactly when [end_of_duration] is, and a
    date is on or before it exactly when it is before [end_of_duration]:
    the closed period to [inclusive_end] and the half-open one to
    [end_of_duration] hold the same dates. *)
Theorem inclusive_end_closes_period (i : date_interval_t) :
  (inclusive_end i = None <-> end_of_duration i = None) /\
  (forall e, end_of_duration i = Some e ->
     exists l, inclusive_end i = Some l /\ l < e /\
               forall date, date <= l <-> date < e).
Proof.
  unfold inclusive_end, gregorian.sub_days.
  destruct (end_of_duration i) as [e|]; split.
  - split; discriminate.
  - intros e' [= <-]; exists (e - 1); repeat split; intros; lia.
  - tauto.
  - discriminate.
Qed.

Lemma inclusive_end_closes_period_witness :
  exists l, inclusive_end scenario_D = Some l /\
            gregorian.make_date 2021 5 31 <= l.
Proof.
  destruct (proj2 (inclusive_end_closes_period scenario_D)
              (gregorian.make_date 2021 6 1) eq_refl) as (l & Hl & _ & Hin).
  exists l; split; [exact Hl|].
  apply Hin; vm_compute; reflexivity.
Defined.

(** X16: two valid intervals that [operator==] holds for report the same
    [begin], whatever their windows and whatever year is passed; their
    [end] may differ. *)
Theorem equal_intervals_same_begin (E : externs) (a b : date_interval_t)
    (ya yb : optional_year) :
  operator_eq a b = true -> is_valid a = true ->
  is_valid b = true /\
  date_interval_t_begin a ya = date_interval_t_begin b yb /\
  date_interval_t_begin a ya = start a.
Proof.
  unfold operator_eq, optional_date_eqb, is_valid, date_interval_t_begin.
  destruct (start a) as [x|], (start b) as [y|]; cbn; try discriminate.
  rewrite andb_diag, Z.eqb_eq; intros -> _; auto.
Qed.

Lemma equal_intervals_same_begin_witness :
  @date_interval_t_begin scenario scenario_D None =
  @date_interval_t_begin scenario zero_length_interval (Some 1999).
Proof.
  exact (proj1 (proj2 (equal_intervals_same_begin
                         scenario scenario_D zero_length_interval
                         None (Some 1999) eq_refl eq_refl))).
Defined.

Example equal_intervals_other_end :
  operator_eq scenario_D zero_length_interval = true /\
  @date_interval_t_end scenario scenario_D None <>
  @date_interval_t_end scenario zero_length_interval None.
Proof. split; [reflexivity | discriminate]. Qed.
